(** * Stochastic Ruler random search: a shallow embedding of
      [StochasticRuler.py] (class [stochastic_ruler]) and its properties.

    Conventions of the embedding.
    - Python [dict]s that are iterated ([space], configurations) are
      association lists in insertion order with update-in-place on an
      existing key; the lookup-only [Neigh_dict] is a [gmap string Z].
    - Python exceptions are the constructors of [exn]; a computation that may
      raise returns [result].
    - [numpy.random] and the scikit-learn model are an abstract world [W]
      threaded through every call that consumes randomness ([World]).
    - Finite floats are compared as the rationals they denote ([Q]).
    - [x_k], [zk] and [opt_x] may name the same dict, but no dict is
      assigned to after the loop that built it, so they are held by value. *)

From Stdlib Require Import ZArith QArith Qround Lia.
From stdpp Require Import gmap strings list fin_maps pretty.

Local Open Scope Z_scope.

(** ** Python values, exceptions, results *)

(** [str(l)] on the hyperparameter values of a search space. *)
Class PyStr (value : Type) := str : value -> string.

Inductive exn : Type :=
| KeyError (key : string)
| IndexError
| ZeroDivisionError
| ValueError
| UnboundLocalError (name : string)
| External (msg : string).

Inductive result (A : Type) : Type :=
| Ok (a : A)
| Raise (e : exn).
Arguments Ok {A} a.
Arguments Raise {A} e.

#[global] Instance result_ret : MRet result := fun A a => Ok a.
#[global] Instance result_bind : MBind result := fun A B f m =>
  match m with
  | Ok a => f a
  | Raise e => Raise e
  end.

(** ** Dictionaries in insertion order *)

Section Dict.
Context {V : Type}.

(** [d[key]] *)
Fixpoint dict_get (d : list (string * V)) (key : string) : option V :=
  match d with
  | [] => None
  | (k', v) :: d' => if String.eqb k' key then Some v else dict_get d' key
  end.

(** [d[key] = v]: overwrite in place, or append a new entry. *)
Fixpoint dict_set (d : list (string * V)) (key : string) (v : V)
  : list (string * V) :=
  match d with
  | [] => [(key, v)]
  | (k', v') :: d' =>
      if String.eqb k' key then (k', v) :: d'
      else (k', v') :: dict_set d' key v
  end.

End Dict.

(** [l[i]] on a Python list: a negative index counts from the end. *)
Definition py_getitem {A : Type} (l : list A) (i : Z) : result A :=
  let n := Z.of_nat (length l) in
  let j := if i <? 0 then i + n else i in
  if (j <? 0) || (n <=? j) then Raise IndexError
  else match l !! Z.to_nat j with
       | Some x => Ok x
       | None => Raise IndexError
       end.

(** ** The failure budget [Mf] *)

(** Number of times [n] can be divided by 5 before it drops below 5. *)
Fixpoint log5_fuel (fuel : nat) (n : Z) : Z :=
  match fuel with
  | O => 0
  | S fuel' => if n <? 5 then 0 else 1 + log5_fuel fuel' (n / 5)
  end.

(** [floor(log_5 n)] for [n >= 1]. *)
Definition log5 (n : Z) : Z := log5_fuel (Z.to_nat (Z.log2 n)) n.

(** [Mf]: [int(math.log(k+10, math.e) / math.log(5, math.e))].
    [math.log] raises [ValueError] on a non-positive argument; otherwise the
    quotient of logarithms is non-negative and [int] truncates it. The
    quotient is taken at its mathematical value, so that the result is
    [floor(log_5 (k + 10))], computed here on integers. The double
    quotient of the code has the same integer part wherever it does not
    round across an integer, as on the iterations a run reaches; it rounds
    up to 22 just below 5^22, from k = 2384185791015601. [Mf_float] below
    keeps the floating-point operations. *)
Definition Mf (k : Z) : result Z :=
  if k + 10 <=? 0 then Raise ValueError else Ok (log5 (k + 10)).

(** ** The failure budget on floating-point numbers *)

Section FloatBudget.

(** The floating point of the platform, a finite double being the rational
    it denotes: [flog n] is the double that the logarithm of [math.log]
    returns for the integer [n > 0], [log_e] the one it returns for
    [math.e], and [fdiv] the division of doubles, rounded. *)
Variable flog : Z -> Q.
Variable log_e : Q.
Variable fdiv : Q -> Q -> Q.





End FloatBudget.


(** ** The class [stochastic_ruler] *)

(** A configuration: hyperparameter name -> chosen value. *)
Abbreviation config value := (list (string * value)).

(** The instance attributes read by the search ([data] and
    [initial_choice_HP] are set to [None] and never read by it). *)
Record stochastic_ruler (value : Type) := Build_stochastic_ruler {
  space : list (string * list value);
  model_type : string;
  maxevals : Z;
  Neigh_dict : gmap string Z
}.
Arguments Build_stochastic_ruler {value} _ _ _ _.
Arguments space {value} _.
Arguments model_type {value} _.
Arguments maxevals {value} _.
Arguments Neigh_dict {value} _.

(** The outcomes of [np.random.randint(-1, 2)]. *)
Inductive step : Type := StepDown | StepStay | StepUp.

Definition step_Z (s : step) : Z :=
  match s with
  | StepDown => -1
  | StepStay => 0
  | StepUp => 1
  end.

(** What building, training and scoring a model returns: the cost
    [1 - acc] and the world after it, or an exception of the collaborator
    ([ModelFunc], [data_preprocessing], scikit-learn). Whatever its class,
    that of the [UnboundLocalError] for [MODEL] and of the [KeyError] of
    [ModelFunc] included, such an exception reaches [SR_Algo] as
    [External]; [UnboundLocalError] below is for the locals of [SR_Algo]
    alone. *)
Inductive scored (W : Type) : Type :=
| Cost (h : Q) (w : W)
| Fails (msg : string).
Arguments Cost {W} h w.
Arguments Fails {W} msg.

(** The collaborators of the search: the two [numpy.random] draws, and the
    model built, trained and scored on a configuration with the data
    [X], [y]. *)
Class World (value W : Type) := {
  randint : W -> step * W;
  uniform : W -> Q * W;
  score : config value -> W -> scored W
}.

(** [x < y] on floats. *)
Definition Qltb (x y : Q) : bool :=
  match Qcompare x y with
  | Lt => true
  | _ => false
  end.

(** [opt_x] starts as the empty list [[]] and later holds a configuration. *)
Inductive py_opt_x (value : Type) : Type :=
| EmptyList
| Config (c : config value).
Arguments EmptyList {value}.
Arguments Config {value} c.

(** The local variables of [SR_Algo]; [h_of_z] and [u] are unbound until
    the comparison loop has assigned them. *)
Record locals (value : Type) := Locals {
  minh_of_z : Q;
  opt_x : py_opt_x value;
  k : Z;
  x_k : config value;
  h_of_z : option Q;
  u : option Q
}.
Arguments Locals {value} _ _ _ _ _ _.
Arguments minh_of_z {value} _.
Arguments opt_x {value} _.
Arguments k {value} _.
Arguments x_k {value} _.
Arguments h_of_z {value} _.
Arguments u {value} _.

(** One pass of the main loop, as observed: the counter and current point
    it started from, the candidate, and the (sample, ruler) pairs drawn. *)
Record pass (value : Type) := Pass {
  pass_k : Z;
  pass_x : config value;
  pass_zk : config value;
  pass_draws : list (Q * Q)
}.
Arguments Pass {value} _ _ _ _.
Arguments pass_k {value} _.
Arguments pass_x {value} _.
Arguments pass_zk {value} _.
Arguments pass_draws {value} _.

Section Search.
Context {value : Type} `{!PyStr value} {W : Type} `{!World value W}.

(** [key = hyper_param + "_" + str(l)] *)
Definition key_of (hyper_param : string) (l : value) : string :=
  String.append hyper_param (String.append "_" (str l)).

(** [for i, l in enumerate(self.space[hyper_param]): Dict[key] = i] *)
Fixpoint enumerate_into (hyper_param : string) (i : Z) (vals : list value)
  (Dict : gmap string Z) : gmap string Z :=
  match vals with
  | [] => Dict
  | l :: vals' =>
      enumerate_into hyper_param (i + 1) vals'
        (<[key_of hyper_param l := i]> Dict)
  end.

(** [for hyper_param in self.space: ...] *)
Fixpoint help_neigh_struct_loop (sp : list (string * list value))
  (Dict : gmap string Z) : gmap string Z :=
  match sp with
  | [] => Dict
  | (hyper_param, vals) :: sp' =>
      help_neigh_struct_loop sp' (enumerate_into hyper_param 0 vals Dict)
  end.

Definition help_neigh_struct (sp : list (string * list value))
  : gmap string Z :=
  help_neigh_struct_loop sp ∅.

(** [__init__]: no statement of the constructor raises. *)
Definition init (sp : list (string * list value)) (mt : string) (me : Z)
  : result (stochastic_ruler value) :=
  Ok (Build_stochastic_ruler sp mt me (help_neigh_struct sp)).

(** The body of [for hp in initial_choice] over the remaining items.
    A dict has no duplicate key, so the value of the item is
    [initial_choice[hp]]. Python's [%] takes the sign of the divisor, as
    [Z.modulo] does. *)
Fixpoint pick_loop (self : stochastic_ruler value)
  (items : config value) (set_hp : config value) (w : W)
  : result (config value * W) :=
  match items with
  | [] => Ok (set_hp, w)
  | (hp, v) :: items' =>
      let key := key_of hp v in
      match Neigh_dict self !! key with
      | None => Raise (KeyError key)
      | Some hp_index =>
          let (idx, w1) := randint w in
          match dict_get (space self) hp with
          | None => Raise (KeyError hp)
          | Some vals =>
              let length := Z.of_nat (List.length vals) in
              if length =? 0 then Raise ZeroDivisionError
              else
                x ← py_getitem vals ((hp_index + step_Z idx + length) mod length);
                pick_loop self items' (dict_set set_hp hp x) w1
          end
      end
  end.

Definition random_pick_from_neighbourhood_structure
  (self : stochastic_ruler value) (initial_choice : config value) (w : W)
  : result (config value * W) :=
  pick_loop self initial_choice [] w.

(** [run]: the model is built from a fresh neighbour of [neigh]. *)
Definition run (self : stochastic_ruler value) (neigh : config value) (w : W)
  : result (Q * W) :=
  '(neigh', w1) ← random_pick_from_neighbourhood_structure self neigh w;
  match score neigh' w1 with
  | Cost h w2 => Ok (h, w2)
  | Fails msg => Raise (External msg)
  end.

(** [for i in self.space: initial_choice_HP[i] = self.space[i][0]] *)
Fixpoint initial_choice_loop (sp : list (string * list value))
  (initial_choice_HP : config value) : result (config value) :=
  match sp with
  | [] => Ok initial_choice_HP
  | (i, vals) :: sp' =>
      x ← py_getitem vals 0;
      initial_choice_loop sp' (dict_set initial_choice_HP i x)
  end.

(** [if(h_of_z<minh_of_z): minh_of_z = h_of_z; opt_x = x] *)
Definition record_best (s : locals value) (h : Q) (x : config value)
  : locals value :=
  if Qltb h (minh_of_z s)
  then Locals h (Config x) (k s) (x_k s) (h_of_z s) (u s)
  else s.

(** [k+=1] *)
Definition incr_k (s : locals value) : locals value :=
  Locals (minh_of_z s) (opt_x s) (k s + 1) (x_k s) (h_of_z s) (u s).

(** [h_of_z = ...; u = ...] *)
Definition set_draw (s : locals value) (h r : Q) : locals value :=
  Locals (minh_of_z s) (opt_x s) (k s) (x_k s) (Some h) (Some r).

(** [x_k = zk] *)
Definition set_x_k (s : locals value) (x : config value) : locals value :=
  Locals (minh_of_z s) (opt_x s) (k s) x (h_of_z s) (u s).

(** [for i in range(iter)] with [n] rounds left; returns the locals after
    the loop and, for the record, the (sample, ruler) pairs it drew. *)
Fixpoint for_loop (self : stochastic_ruler value) (n : nat)
  (zk : config value) (s : locals value) (w : W)
  : result (locals value * W * list (Q * Q)) :=
  match n with
  | O => Ok (s, w, [])
  | S n' =>
      '(h, w1) ← run self zk w;
      let (r, w2) := uniform w1 in
      let s1 := set_draw s h r in
      if Qltb r h
      then Ok (record_best (incr_k s1) h (x_k s1), w2, [(h, r)])
      else
        '(s', w', draws) ← for_loop self n' zk s1 w2;
        Ok (s', w', (h, r) :: draws)
  end.

(** Reading a local that may not have been assigned. *)
Definition read_local (name : string) (o : option Q) : result Q :=
  match o with
  | Some q => Ok q
  | None => Raise (UnboundLocalError name)
  end.

(** The body of [while(k<self.maxevals+1)]; the pass made is returned
    next to the locals and the world. *)
Definition while_body (self : stochastic_ruler value) (s : locals value)
  (w : W) : result (locals value * W * pass value) :=
  '(zk, w1) ← random_pick_from_neighbourhood_structure self (x_k s) w;
  iter ← Mf (k s);
  '(s1, w2, draws) ← for_loop self (Z.to_nat iter) zk s w1;
  h ← read_local "h_of_z" (h_of_z s1);
  r ← read_local "u" (u s1);
  let s2 :=
    if Qltb h r then record_best (incr_k (set_x_k s1 zk)) h zk else s1 in
  Ok (s2, w2, Pass (k s) (x_k s) zk draws).

(** The main loop; [None] when [fuel] passes do not reach the exit. *)
Fixpoint while_loop (self : stochastic_ruler value) (fuel : nat)
  (s : locals value) (w : W) (log : list (pass value))
  : option (result (Q * py_opt_x value * W * list (pass value))) :=
  if k s <? maxevals self + 1 then
    match fuel with
    | O => None
    | S fuel' =>
        match while_body self s w with
        | Raise e => Some (Raise e)
        | Ok (s', w', p) => while_loop self fuel' s' w' (log ++ [p])
        end
    end
  else Some (Ok (minh_of_z s, opt_x s, w, log)).

(** [SR_Algo]: returns [(minh_of_z, opt_x)], here together with the world
    it leaves and the passes it made. *)
Definition SR_Algo (self : stochastic_ruler value) (fuel : nat) (w : W)
  : option (result (Q * py_opt_x value * W * list (pass value))) :=
  match initial_choice_loop (space self) [] with
  | Raise e => Some (Raise e)
  | Ok initial_choice_HP =>
      while_loop self fuel
        (Locals 1%Q EmptyList 1 initial_choice_HP None None) w []
  end.

(** [fit] stores the data, which only the world reads, and calls
    [SR_Algo]. *)
Definition fit (self : stochastic_ruler value) (fuel : nat) (w : W)
  : option (result (Q * py_opt_x value * W * list (pass value))) :=
  SR_Algo self fuel w.

End Search.

(** ** [ModelFunc] *)

(** The integer that [range] accepts as its argument; [None] for a value
    that is not an integer, on which [range] raises [TypeError]. *)
Class PyIndex (value : Type) := as_index : value -> option Z.

(** The exceptions of [ModelFunc]: those above, and [TypeError]. *)
Inductive py_error : Type :=
| Core (e : exn)
| TypeError.

(** The estimator constructed, with the arguments of the call. The
    scikit-learn constructors store their arguments and check nothing. *)
Inductive model (value : Type) : Type :=
| MLPClassifier (max_iter : Z) (solver alpha : value)
    (hidden_layer_sizes : list value)
| SVC (kernel gamma C : value) (max_iter : Z)
| RandomForestClassifier (max_depth criterion n_estimators : value)
| DecisionTreeClassifier (random_state : Z)
| GradientBoostingClassifier (n_estimators learning_rate max_depth : value)
| KNeighborsClassifier (n_neighbors weights metric : value).
Arguments MLPClassifier {value} _ _ _ _.
Arguments SVC {value} _ _ _ _.
Arguments RandomForestClassifier {value} _ _ _.
Arguments DecisionTreeClassifier {value} _.
Arguments GradientBoostingClassifier {value} _ _ _.
Arguments KNeighborsClassifier {value} _ _ _.

Section ModelFunc.
Context {value : Type} `{!PyIndex value}.

(** [neigh[key]] *)
Definition neigh_get (neigh : config value) (key : string)
  : py_error + value :=
  match dict_get neigh key with
  | Some v => inr v
  | None => inl (Core (KeyError key))
  end.

(** ['hidden_layer_'+str(i)] *)
Definition hidden_layer_key (i : nat) : string :=
  String.append "hidden_layer_" (pretty (Z.of_nat i)).

(** [for i in range(N): hidden_layer_sizes.append(neigh['hidden_layer_'+str(i)])]
    from [i] on, with [n] rounds left. *)
Fixpoint hidden_layers_loop (neigh : config value) (i n : nat)
  (hidden_layer_sizes : list value) : py_error + list value :=
  match n with
  | O => inr hidden_layer_sizes
  | S n' =>
      match neigh_get neigh (hidden_layer_key i) with
      | inl e => inl e
      | inr v => hidden_layers_loop neigh (S i) n' (hidden_layer_sizes ++ [v])
      end
  end.

(** The body of [if(self.model_type == 'MLP')]. *)
Definition build_MLP (self : stochastic_ruler value) (neigh : config value)
  : py_error + model value :=
  match dict_get (space self) "num_hidden_layers" with
  | None => inl (Core (KeyError "num_hidden_layers"))
  | Some vals =>
      match py_getitem vals 0 with
      | Raise e => inl (Core e)
      | Ok N =>
          match as_index N with
          | None => inl TypeError
          | Some n =>
              match hidden_layers_loop neigh 0 (Z.to_nat n) [] with
              | inl e => inl e
              | inr hidden_layer_sizes =>
                  match neigh_get neigh "solver" with
                  | inl e => inl e
                  | inr solver =>
                      match neigh_get neigh "learning_rate" with
                      | inl e => inl e
                      | inr alpha =>
                          inr (MLPClassifier 1000 solver alpha
                                 hidden_layer_sizes)
                      end
                  end
              end
          end
      end
  end.

(** A constructor call with three arguments read from [neigh], in the
    order they are written. *)
Definition build3 (neigh : config value) (k1 k2 k3 : string)
  (make : value -> value -> value -> model value) : py_error + model value :=
  match neigh_get neigh k1 with
  | inl e => inl e
  | inr v1 =>
      match neigh_get neigh k2 with
      | inl e => inl e
      | inr v2 =>
          match neigh_get neigh k3 with
          | inl e => inl e
          | inr v3 => inr (make v1 v2 v3)
          end
      end
  end.

(** One [if(self.model_type == tag): MODEL = ...] on the way. *)
Definition model_if (self : stochastic_ruler value) (tag : string)
  (build : py_error + model value) (MODEL : py_error + option (model value))
  : py_error + option (model value) :=
  match MODEL with
  | inl e => inl e
  | inr bound =>
      if String.eqb (model_type self) tag
      then match build with
           | inl e => inl e
           | inr m => inr (Some m)
           end
      else inr bound
  end.

Definition ModelFunc (self : stochastic_ruler value) (neigh : config value)
  : py_error + model value :=
  let MODEL := inr None in
  let MODEL := model_if self "MLP" (build_MLP self neigh) MODEL in
  let MODEL :=
    model_if self "SVM"
      (build3 neigh "kernel" "gamma" "C" (fun k g c => SVC k g c 1000))
      MODEL in
  let MODEL :=
    model_if self "RFC"
      (build3 neigh "max_depth" "criterion" "n_estimators"
         RandomForestClassifier)
      MODEL in
  let MODEL := model_if self "DTC" (inr (DecisionTreeClassifier 0)) MODEL in
  let MODEL :=
    model_if self "GBC"
      (build3 neigh "n_estimators" "learning_rate" "max_depth"
         GradientBoostingClassifier)
      MODEL in
  let MODEL :=
    model_if self "KNN"
      (build3 neigh "n_neighbors" "weights" "metric" KNeighborsClassifier)
      MODEL in
  match MODEL with
  | inl e => inl e
  | inr (Some m) => inr m
  | inr None => inl (Core (UnboundLocalError "MODEL"))
  end.

End ModelFunc.

(** ** Concrete values and scripted worlds, for running the search *)

(** Integer and string hyperparameter values, with Python's [str]. *)
Inductive pyval : Type :=
| PInt (n : Z)
| PStr (s : string).

#[global] Instance pyval_str : PyStr pyval := fun v =>
  match v with
  | PInt n => pretty n
  | PStr s => s
  end.

#[global] Instance pyval_index : PyIndex pyval := fun v =>
  match v with
  | PInt n => Some n
  | PStr _ => None
  end.

(** A scripted world: the outcomes of the coming [randint] and [uniform]
    draws (a fixed outcome once the script is used up) and the number of
    models scored so far. *)
Record script := Script {
  steps : list step;
  rulers : list Q;
  calls : nat
}.

(** The world in which the [n]-th scored model (counting from 0), built
    from configuration [c], costs [cost c n]. *)
Definition scripted (cost : config pyval -> nat -> Q)
  : World pyval script := {|
  randint w := (hd StepStay (steps w), Script (tl (steps w)) (rulers w) (calls w));
  uniform w := (hd (1 # 2)%Q (rulers w), Script (steps w) (tl (rulers w)) (calls w));
  score c w :=
    Cost (cost c (calls w)) (Script (steps w) (rulers w) (S (calls w)))
|}.

(** Cost functions: a constant one; the one of the spec's scenario, 0 at
    [x = 2] and 1 elsewhere; one that depends on the call only, 0.1 at the
    15th model, 0.9 at the 16th and 1 otherwise. *)
Definition constant_cost (h : Q) : config pyval -> nat -> Q := fun _ _ => h.

Definition peak_cost : config pyval -> nat -> Q := fun c _ =>
  match dict_get c "x" with
  | Some (PInt 2) => 0%Q
  | _ => 1%Q
  end.

Definition late_cost : config pyval -> nat -> Q := fun _ n =>
  if Nat.eqb n 14 then (1 # 10)%Q
  else if Nat.eqb n 15 then (9 # 10)%Q
  else 1%Q.

(** The space [{"x": [1, 2, 3]}], the searcher constructed on it, and the
    locals of [SR_Algo] when it enters the main loop. *)
Definition grid : list (string * list pyval) :=
  [("x", [PInt 1; PInt 2; PInt 3])].

Definition searcher (me : Z) : stochastic_ruler pyval :=
  Build_stochastic_ruler grid "DTC" me (help_neigh_struct grid).

Definition start : locals pyval :=
  Locals 1%Q EmptyList 1 [("x", PInt 1)] None None.

(** A scripted world for one pass on [grid], and the pass it produces:
    the candidate is [{x: 1}], the model scored is [{x: 2}], of cost 0,
    against the ruler 1/2. *)
Definition demo_world : script := Script [StepStay; StepUp] [(1 # 2)%Q] 0.

Definition demo_log : list (pass pyval) :=
  [Pass 1 [("x", PInt 1)] [("x", PInt 1)] [(0%Q, (1 # 2)%Q)]].

(** Searchers for the model types of [ModelFunc]. *)
Definition mlp_space : list (string * list pyval) :=
  [("num_hidden_layers", [PInt 2; PInt 3]);
   ("hidden_layer_0", [PInt 8; PInt 16]);
   ("hidden_layer_1", [PInt 4; PInt 8]);
   ("solver", [PStr "adam"; PStr "sgd"]);
   ("learning_rate", [PStr "0.001"; PStr "0.01"])].

Definition typed_searcher (sp : list (string * list pyval)) (mt : string)
  : stochastic_ruler pyval :=
  Build_stochastic_ruler sp mt 100 (help_neigh_struct sp).


(** ** Vocabulary of the properties *)

(** A draw (sample, ruler) that fails the ruler test. *)
Definition fails (d : Q * Q) : Prop := ~ Qlt (snd d) (fst d).

(** The exceptions other than a read of an unbound local. *)
Definition is_core_error (e : exn) : Prop :=
  match e with
  | UnboundLocalError _ => False
  | _ => True
  end.

Section Vocabulary.
Context {value : Type} `{!PyStr value}.

(** The assignments [Dict[key] = i] of [help_neigh_struct] for one
    dimension, in the order they are executed. *)
Fixpoint dimension_entries (hyper_param : string) (i : Z) (vals : list value)
  : list (string * Z) :=
  match vals with
  | [] => []
  | l :: vals' =>
      (key_of hyper_param l, i) :: dimension_entries hyper_param (i + 1) vals'
  end.

Fixpoint space_entries (sp : list (string * list value)) : list (string * Z) :=
  match sp with
  | [] => []
  | (hyper_param, vals) :: sp' =>
      dimension_entries hyper_param 0 vals ++ space_entries sp'
  end.

(** The position assigned last to [key], [acc] if there is none. *)
Fixpoint last_assigned (key : string) (es : list (string * Z))
  (acc : option Z) : option Z :=
  match es with
  | [] => acc
  | (key', i) :: es' =>
      last_assigned key es' (if String.eqb key' key then Some i else acc)
  end.

(** Every value of the configuration is an allowed value of its dimension. *)
Definition allowed (sp : list (string * list value)) (d : string) (v : value)
  : Prop :=
  exists vals, dict_get sp d = Some vals /\ In v vals.

Definition in_space (sp : list (string * list value)) (c : config value)
  : Prop :=
  Forall (fun item => allowed sp (fst item) (snd item)) c.

(** The sample that decided a pass: the last one drawn, when it passed
    the ruler test (accepted) or fell below its ruler (forced). *)
Definition deciding_sample (p : pass value) : option Q :=
  match last (pass_draws p) with
  | Some (h, r) => if Qltb r h || Qltb h r then Some h else None
  | None => None
  end.

(** [m] is at most every sample drawn in an accepted or forced pass. *)
Definition bounds_all_samples (m : Q) (log : list (pass value)) : Prop :=
  forall p d, In p log -> deciding_sample p <> None ->
    In d (pass_draws p) -> Qle m (fst d).

(** [new] is what one round of the perturbation loop stores for [item]:
    the same name, and the value found at the wrapped index. *)
Definition perturbed (self : stochastic_ruler value)
  (item new : string * value) : Prop :=
  fst new = fst item /\
  exists hp_index idx vals,
    Neigh_dict self !! key_of (fst item) (snd item) = Some hp_index /\
    dict_get (space self) (fst item) = Some vals /\
    vals <> [] /\
    vals !! Z.to_nat ((hp_index + step_Z idx + Z.of_nat (length vals))
                        mod Z.of_nat (length vals)) = Some (snd new).

(** [new] holds a cyclic neighbour of the value of [item] in its
    dimension: the position moved by -1, 0 or +1 modulo the length. *)
Definition cyclic_neighbour (sp : list (string * list value))
  (item new : string * value) : Prop :=
  fst new = fst item /\
  exists vals (i : nat) idx,
    dict_get sp (fst item) = Some vals /\
    vals !! i = Some (snd item) /\
    vals !! Z.to_nat ((Z.of_nat i + step_Z idx) mod Z.of_nat (length vals))
      = Some (snd new).

(** A pass is accepted when its last sample exceeds its ruler, forced when
    its last sample is below its ruler. *)
Definition acceptedb (p : pass value) : bool :=
  match last (pass_draws p) with
  | Some (h, r) => Qltb r h
  | None => false
  end.

Definition forcedb (p : pass value) : bool :=
  match last (pass_draws p) with
  | Some (h, r) => Qltb h r
  | None => false
  end.

(** The counter and the current point that a pass leaves behind. *)
Definition next_k (p : pass value) : Z :=
  if acceptedb p || forcedb p then pass_k p + 1 else pass_k p.

Definition next_x (p : pass value) : config value :=
  if forcedb p then pass_zk p else pass_x p.

(** The passes follow one another from counter [k0] and point [x0]. *)
Fixpoint follows (k0 : Z) (x0 : config value) (log : list (pass value))
  : Prop :=
  match log with
  | [] => True
  | p :: log' =>
      pass_k p = k0 /\ pass_x p = x0 /\ follows (next_k p) (next_x p) log'
  end.

(** The passes follow one another from [k0], [x0] and leave [kf], [xf]. *)
Fixpoint ends_at (k0 : Z) (x0 : config value) (log : list (pass value))
  (kf : Z) (xf : config value) : Prop :=
  match log with
  | [] => kf = k0 /\ xf = x0
  | p :: log' =>
      pass_k p = k0 /\ pass_x p = x0 /\
      ends_at (next_k p) (next_x p) log' kf xf
  end.

(** The deciding samples of the passes, in order, and their running
    minimum under the comparison [h < acc] of the code. *)
Definition decided_samples (log : list (pass value)) : list Q :=
  omap deciding_sample log.

Definition running_min (hs : list Q) (acc : Q) : Q :=
  fold_left (fun acc h => if Qltb h acc then h else acc) hs acc.

(** The invariant of the main loop on the locals and the passes made. *)
Definition history_invariant (me : Z) (c0 : config value)
  (s : locals value) (log : list (pass value)) : Prop :=
  1 <= k s <= Z.max 1 (me + 1) /\
  ends_at 1 c0 log (k s) (x_k s) /\
  minh_of_z s = running_min (decided_samples log) 1%Q /\
  k s = 1 + Z.of_nat (length (decided_samples log)) /\
  Qle (minh_of_z s) 1%Q /\
  match opt_x s with
  | EmptyList => minh_of_z s = 1%Q
  | Config c =>
      Qlt (minh_of_z s) 1%Q /\
      exists p, In p log /\ deciding_sample p = Some (minh_of_z s) /\
                c = next_x p
  end.

(** The shape of the draws of one pass started at counter [pass_k]: at
    least one, at most the budget, all but the last failing. *)
Definition well_formed_pass (me : Z) (p : pass value) : Prop :=
  1 <= pass_k p <= me /\
  exists m pre d,
    Mf (pass_k p) = Ok m /\
    pass_draws p = pre ++ [d] /\
    Forall fails pre /\
    Z.of_nat (length (pass_draws p)) <= m.

(** A pass stays inside the space: its current point and its candidate. *)
Definition pass_in_space (sp : list (string * list value)) (p : pass value)
  : Prop :=
  in_space sp (pass_x p) /\ in_space sp (pass_zk p).

(** The first value of a dimension, under the name of the dimension. *)
Definition first_value (dim : string * list value) (item : string * value)
  : Prop :=
  fst item = fst dim /\ head (snd dim) = Some (snd item).

(** The SearchSpace invariant: every dimension has at least one value. *)
Definition nonempty_dimensions (sp : list (string * list value)) : Prop :=
  Forall (fun dim => snd dim <> []) sp.

End Vocabulary.

(** The tags that [ModelFunc] knows, and for the estimators built from
    three hyperparameters the names it reads, in the order it reads them. *)
Definition model_tags : list string :=
  ["MLP"; "SVM"; "RFC"; "DTC"; "GBC"; "KNN"].

Definition keys_read (tag : string) : list string :=
  if String.eqb tag "SVM" then ["kernel"; "gamma"; "C"]
  else if String.eqb tag "RFC" then ["max_depth"; "criterion"; "n_estimators"]
  else if String.eqb tag "GBC"
       then ["n_estimators"; "learning_rate"; "max_depth"]
  else if String.eqb tag "KNN" then ["n_neighbors"; "weights"; "metric"]
  else [].

Section Observation.
Context {value : Type} `{!PyStr value} {W : Type} `{!World value W}.

(** The passes that the first [fuel] rounds of the main loop make from the
    locals [s], whether or not the loop has ended by then. *)
Fixpoint passes_made (self : stochastic_ruler value) (fuel : nat)
  (s : locals value) (w : W) : list (pass value) :=
  if k s <? maxevals self + 1 then
    match fuel with
    | O => []
    | S fuel' =>
        match while_body self s w with
        | Raise _ => []
        | Ok (s', w', p) => p :: passes_made self fuel' s' w'
        end
    end
  else [].

End Observation.

(** * Properties *)

Example searcher_is_constructed (me : Z) :
  init grid "DTC" me = Ok (searcher me).
Proof. reflexivity. Qed.

Example key_of_int : key_of "max_depth" (PInt 12) = "max_depth_12".
Proof. reflexivity. Qed.

(** ** The failure budget *)

Example Mf_14 : Mf 14 = Ok 1. Proof. reflexivity. Qed.
Example Mf_15 : Mf 15 = Ok 2. Proof. reflexivity. Qed.
Example Mf_115 : Mf 115 = Ok 3. Proof. reflexivity. Qed.

Lemma log5_fuel_spec (fuel : nat) (n : Z) :
  1 <= n -> n < 5 ^ (Z.of_nat fuel + 1) ->
  0 <= log5_fuel fuel n /\
  5 ^ log5_fuel fuel n <= n < 5 ^ (log5_fuel fuel n + 1).
Proof.
  revert n. induction fuel as [|fuel IH]; intros n Hpos Hlt.
  - simpl in *. lia.
  - cbn [log5_fuel]. destruct (Z.ltb_spec n 5) as [Hsmall|Hbig].
    + simpl. lia.
    + assert (Hpow : 5 ^ (Z.of_nat (S fuel) + 1) = 5 * 5 ^ (Z.of_nat fuel + 1)).
      { rewrite <- Z.pow_succ_r by lia. f_equal. lia. }
      destruct (IH (n / 5)) as (Hnn & Hlo & Hhi).
      * apply Z.div_le_lower_bound; lia.
      * apply Z.div_lt_upper_bound; lia.
      * pose proof (Z.div_mod n 5 ltac:(lia)) as Hdm.
        pose proof (Z.mod_pos_bound n 5 ltac:(lia)) as Hmod.
        set (m := log5_fuel fuel (n / 5)) in *.
        replace (1 + m + 1) with (Z.succ (m + 1)) by lia.
        replace (1 + m) with (Z.succ m) by lia.
        rewrite !Z.pow_succ_r by lia.
        lia.
Qed.

Lemma log5_spec (n : Z) :
  1 <= n -> 0 <= log5 n /\ 5 ^ log5 n <= n < 5 ^ (log5 n + 1).
Proof.
  intros Hpos. unfold log5. apply log5_fuel_spec; [exact Hpos|].
  rewrite Z2Nat.id by apply Z.log2_nonneg.
  destruct (Z.log2_spec n ltac:(lia)) as [_ Hlog].
  eapply Z.lt_le_trans; [exact Hlog|].
  replace (Z.succ (Z.log2 n)) with (Z.log2 n + 1) by lia.
  apply Z.pow_le_mono_l. lia.
Qed.

Lemma log5_mono (n1 n2 : Z) : 1 <= n1 <= n2 -> log5 n1 <= log5 n2.
Proof.
  intros [H1 H12].
  destruct (log5_spec n1 H1) as (Hnn1 & Hlo1 & _).
  destruct (log5_spec n2 ltac:(lia)) as (Hnn2 & _ & Hhi2).
  assert (Hlt : 5 ^ log5 n1 < 5 ^ (log5 n2 + 1)) by lia.
  apply Z.pow_lt_mono_r_iff in Hlt; lia.
Qed.

Lemma Mf_defined (j : Z) : 1 <= j -> exists m, Mf j = Ok m /\ 1 <= m.
Proof.
  intros Hj. unfold Mf. destruct (Z.leb_spec (j + 10) 0) as [Hneg|_]; [lia|].
  eexists; split; [reflexivity|].
  change 1 with (log5 11). apply log5_mono. lia.
Qed.

Lemma Mf_floor_log5 (j m : Z) :
  Mf j = Ok m -> 0 <= m /\ 5 ^ m <= j + 10 < 5 ^ (m + 1).
Proof.
  unfold Mf. destruct (Z.leb_spec (j + 10) 0) as [|Hpos]; [discriminate|].
  intros [= <-]. apply log5_spec. lia.
Qed.

(** C7 (as stated, refuted): the budget of the first iteration is not 0. *)
Lemma first_budget_is_not_zero : Mf 1 <> Ok 0.
Proof. discriminate. Qed.

(** C7 (amended): the failure budget of the first iteration is 1,
    the floor of log(11)/log(5) = 1.49. *)
Theorem Mf_first_iteration : Mf 1 = Ok 1.
Proof. reflexivity. Qed.

(** The budget taken at its mathematical value is non-decreasing in the
    iteration index. *)
Theorem Mf_monotone (k1 k2 : Z) :
  1 <= k1 <= k2 ->
  exists m1 m2, Mf k1 = Ok m1 /\ Mf k2 = Ok m2 /\ m1 <= m2.
Proof.
  intros [H1 H12]. unfold Mf.
  destruct (Z.leb_spec (k1 + 10) 0); [lia|].
  destruct (Z.leb_spec (k2 + 10) 0); [lia|].
  do 2 eexists. repeat split. apply log5_mono. lia.
Qed.

Lemma Mf_monotone_witness :
  1 <= 14 <= 15 /\ exists m1 m2, Mf 14 = Ok m1 /\ Mf 15 = Ok m2 /\ m1 <= m2.
Proof. split; [lia | apply (Mf_monotone 14 15); lia]. Defined.

(** ** The failure budget on floating-point numbers is monotone *)



Section FloatBudgetMonotone.

Variable flog : Z -> Q.
Variable log_e : Q.
Variable fdiv : Q -> Q -> Q.

(** The logarithm does not decrease, the division does not decrease in its
    numerator, and the two denominators of [Mf] are positive. *)
Hypothesis flog_mono : forall a b, 0 < a -> a <= b -> Qle (flog a) (flog b).
Hypothesis fdiv_mono :
  forall x y d, Qlt 0 d -> Qle x y -> Qle (fdiv x d) (fdiv y d).
Hypothesis log_e_positive : Qlt 0 log_e.
Hypothesis log_5_positive : Qlt 0 (fdiv (flog 5) log_e).




End FloatBudgetMonotone.




(** ** The neighbourhood index *)

Section NeighbourhoodIndex.
Context {value : Type} `{!PyStr value}.

Lemma last_assigned_app (key : string) (es1 es2 : list (string * Z))
  (acc : option Z) :
  last_assigned key (es1 ++ es2) acc
  = last_assigned key es2 (last_assigned key es1 acc).
Proof.
  revert acc. induction es1 as [|[key' i] es1 IH]; intros acc; simpl; auto.
Qed.

Lemma enumerate_into_lookup (hp : string) (vals : list value) :
  forall (i : Z) (D : gmap string Z) (key : string),
    enumerate_into hp i vals D !! key
    = last_assigned key (dimension_entries hp i vals) (D !! key).
Proof.
  induction vals as [|l vals IH]; intros i D key; simpl; [reflexivity|].
  rewrite IH. f_equal. rewrite lookup_insert.
  destruct (String.eqb_spec (key_of hp l) key) as [->|Hne].
  - rewrite decide_True; done.
  - rewrite decide_False; done.
Qed.

Lemma help_neigh_struct_loop_lookup (sp : list (string * list value)) :
  forall (D : gmap string Z) (key : string),
    help_neigh_struct_loop sp D !! key
    = last_assigned key (space_entries sp) (D !! key).
Proof.
  induction sp as [|[hp vals] sp IH]; intros D key; simpl; [reflexivity|].
  rewrite IH, last_assigned_app, enumerate_into_lookup. reflexivity.
Qed.

Lemma help_neigh_struct_lookup (sp : list (string * list value))
  (key : string) :
  help_neigh_struct sp !! key = last_assigned key (space_entries sp) None.
Proof.
  unfold help_neigh_struct. rewrite help_neigh_struct_loop_lookup.
  rewrite lookup_empty. reflexivity.
Qed.

Lemma last_assigned_some (key : string) (es : list (string * Z)) :
  forall acc, is_Some acc -> is_Some (last_assigned key es acc).
Proof.
  induction es as [|[key' i] es IH]; intros acc Hacc; simpl; [exact Hacc|].
  apply IH. destruct (String.eqb key' key); [eexists; reflexivity|exact Hacc].
Qed.

Lemma last_assigned_in (key : string) (es : list (string * Z)) (i : Z) :
  forall acc, In (key, i) es -> is_Some (last_assigned key es acc).
Proof.
  induction es as [|[key' i'] es IH]; intros acc Hin; simpl in *; [tauto|].
  destruct Hin as [[= -> ->]|Hin].
  - apply last_assigned_some. rewrite String.eqb_refl. eexists; reflexivity.
  - eapply IH, Hin.
Qed.

Lemma dimension_entries_in (hp : string) (vals : list value) (v : value) :
  forall i, In v vals -> exists j, In (key_of hp v, j) (dimension_entries hp i vals).
Proof.
  induction vals as [|l vals IH]; intros i Hin; simpl in *; [tauto|].
  destruct Hin as [->|Hin].
  - exists i. left. reflexivity.
  - destruct (IH (i + 1) Hin) as [j Hj]. exists j. right. exact Hj.
Qed.

Lemma dict_get_in {V : Type} (d : list (string * V)) (key : string) (v : V) :
  dict_get d key = Some v -> In (key, v) d.
Proof.
  induction d as [|[key' v'] d IH]; simpl; [discriminate|].
  destruct (String.eqb_spec key' key) as [->|Hne].
  - intros [= ->]. left. reflexivity.
  - intros Hget. right. apply IH, Hget.
Qed.

Lemma space_entries_in (sp : list (string * list value)) (hp : string)
  (vals : list value) (v : value) :
  In (hp, vals) sp -> In v vals ->
  exists j, In (key_of hp v, j) (space_entries sp).
Proof.
  induction sp as [|[hp' vals'] sp IH]; simpl; [tauto|].
  intros [[= -> ->]|Hin] Hv.
  - destruct (dimension_entries_in hp vals v 0 Hv) as [j Hj].
    exists j. apply in_or_app. left. exact Hj.
  - destruct (IH Hin Hv) as [j Hj]. exists j. apply in_or_app. right. exact Hj.
Qed.

(** Every allowed value of every dimension has a position in the index. *)
Lemma help_neigh_struct_indexed (sp : list (string * list value))
  (hp : string) (vals : list value) (v : value) :
  dict_get sp hp = Some vals -> In v vals ->
  is_Some (help_neigh_struct sp !! key_of hp v).
Proof.
  intros Hget Hv. rewrite help_neigh_struct_lookup.
  destruct (space_entries_in sp hp vals v (dict_get_in _ _ _ Hget) Hv) as [j Hj].
  eapply last_assigned_in, Hj.
Qed.

End NeighbourhoodIndex.

Section Construction.
Context {value : Type} `{!PyStr value}.

(** C4 (amended): construction validates nothing and never raises: for
    every search space it completes, and the index it stores maps each key
    to the position assigned to it last (an empty dimension contributes no
    key, and of duplicate values in a dimension the last position wins). *)
Theorem init_never_raises (sp : list (string * list value)) (mt : string)
  (me : Z) :
  exists self : stochastic_ruler value,
    init sp mt me = Ok self /\
    space self = sp /\ model_type self = mt /\ maxevals self = me /\
    forall key,
      Neigh_dict self !! key = last_assigned key (space_entries sp) None.
Proof.
  eexists. split; [reflexivity|]. simpl. repeat split.
  apply help_neigh_struct_lookup.
Qed.

End Construction.

(** C4 (as stated, refuted): a space with an empty dimension and a space
    with a duplicated value are both accepted by the constructor. *)
Lemma init_accepts_malformed_space :
  (exists self : stochastic_ruler pyval,
      init [("a", [])] "DTC" 100 = Ok self /\ Neigh_dict self = ∅) /\
  (exists self : stochastic_ruler pyval,
      init [("a", [PInt 1; PInt 1])] "DTC" 100 = Ok self /\
      Neigh_dict self !! "a_1" = Some 1).
Proof.
  split; eexists; (split; [reflexivity|]); reflexivity.
Qed.

(** ** Candidate generation *)

Lemma dict_get_dict_set {V : Type} (d : list (string * V)) (key : string)
  (v : V) (key' : string) :
  dict_get (dict_set d key v) key'
  = if String.eqb key key' then Some v else dict_get d key'.
Proof.
  induction d as [|[k0 v0] d IH]; simpl.
  - reflexivity.
  - destruct (String.eqb_spec k0 key) as [->|Hne]; simpl.
    + destruct (String.eqb key key'); reflexivity.
    + rewrite IH. destruct (String.eqb_spec k0 key') as [->|Hne'].
      * destruct (String.eqb_spec key key'); [congruence|reflexivity].
      * reflexivity.
Qed.

Lemma dict_set_Forall {V : Type} (P : string * V -> Prop)
  (d : list (string * V)) (key : string) (v : V) :
  Forall P d -> P (key, v) -> Forall P (dict_set d key v).
Proof.
  intros Hd Hv. induction Hd as [|[k0 v0] d H0 Hd IH]; simpl.
  - constructor; [exact Hv|constructor].
  - destruct (String.eqb_spec k0 key) as [->|Hne].
    + constructor; assumption.
    + constructor; assumption.
Qed.

Lemma dict_get_is_Some {V : Type} (d : list (string * V)) (key : string) :
  is_Some (dict_get d key) <-> In key (map fst d).
Proof.
  induction d as [|[k0 v0] d IH]; simpl.
  - split; [intros [? [=]]|tauto].
  - destruct (String.eqb_spec k0 key) as [->|Hne].
    + split; [auto|eexists; reflexivity].
    + rewrite IH. split; [auto|intros [?|?]; [congruence|assumption]].
Qed.

Lemma py_getitem_in_range {A : Type} (l : list A) (i : Z) :
  0 <= i < Z.of_nat (length l) ->
  exists x, py_getitem l i = Ok x /\ l !! Z.to_nat i = Some x.
Proof.
  intros Hi. unfold py_getitem.
  destruct (Z.ltb_spec i 0); [lia|].
  destruct (Z.ltb_spec i 0); [lia|].
  destruct (Z.leb_spec (Z.of_nat (length l)) i); [lia|]. simpl.
  destruct (l !! Z.to_nat i) as [x|] eqn:Hx.
  - exists x. split; reflexivity.
  - apply lookup_ge_None in Hx. lia.
Qed.

(** The wrapped index never leaves the list. *)
Lemma neighbour_index_in_range (hp_index : Z) (idx : step) (length : Z) :
  0 < length -> 0 <= (hp_index + step_Z idx + length) mod length < length.
Proof. intros Hlen. apply Z.mod_pos_bound. exact Hlen. Qed.

Section CandidateGeneration.
Context {value : Type} `{!PyStr value} {W : Type} `{!World value W}.

Lemma pick_loop_in_space (self : stochastic_ruler value)
  (items : config value) :
  (forall d vals v, dict_get (space self) d = Some vals -> In v vals ->
     is_Some (Neigh_dict self !! key_of d v)) ->
  in_space (space self) items ->
  forall (set_hp : config value) (w : W),
    in_space (space self) set_hp ->
    exists c' w',
      pick_loop self items set_hp w = Ok (c', w') /\
      in_space (space self) c' /\
      forall d, is_Some (dict_get c' d)
                <-> is_Some (dict_get set_hp d) \/ In d (map fst items).
Proof.
  intros Hidx Hitems.
  induction Hitems as [|[hp v] items (vals & Hvals & Hv) Hitems IH];
    intros set_hp w Hset.
  - exists set_hp, w. simpl. repeat split; [exact Hset|tauto|tauto].
  - simpl in Hvals, Hv. cbn [pick_loop].
    destruct (Hidx hp vals v Hvals Hv) as [hp_index ->].
    destruct (randint w) as [idx w1]. rewrite Hvals.
    assert (Hlen : 0 < Z.of_nat (length vals)).
    { destruct vals; simpl in *; [tauto|lia]. }
    destruct (Z.eqb_spec (Z.of_nat (length vals)) 0) as [|_]; [lia|].
    destruct (py_getitem_in_range vals
                ((hp_index + step_Z idx + Z.of_nat (length vals))
                   mod Z.of_nat (length vals))
                (neighbour_index_in_range _ _ _ Hlen)) as (x & -> & Hx).
    cbn [mbind result_bind].
    destruct (IH (dict_set set_hp hp x) w1) as (c' & w' & Hrun & Hc' & Hkeys).
    { apply dict_set_Forall; [exact Hset|].
      exists vals. split; [exact Hvals|].
      apply list_elem_of_In. eapply list_elem_of_lookup_2, Hx. }
    exists c', w'. split; [exact Hrun|]. split; [exact Hc'|].
    intros d. rewrite Hkeys, dict_get_dict_set. simpl.
    destruct (String.eqb_spec hp d) as [->|Hne].
    + split; [auto|intros _; left; eexists; reflexivity].
    + split; [intros [?|?]; auto|intros [?|[?|?]]; auto; congruence].
Qed.

End CandidateGeneration.

Section NeighbourValidity.
Context {value : Type} `{!PyStr value} {W : Type} `{!World value W}.

(** C6: for a configuration whose values are all allowed, the perturbation
    returns a configuration whose value at every dimension is an allowed
    value of that dimension, and the wrapped index
    (i + s + length) mod length always reads inside the list. *)
Theorem random_pick_valid (sp : list (string * list value)) (mt : string)
  (me : Z) (self : stochastic_ruler value) (c : config value) (w : W) :
  init sp mt me = Ok self ->
  in_space sp c ->
  (exists c' w',
      random_pick_from_neighbourhood_structure self c w = Ok (c', w') /\
      forall d, In d (map fst c) ->
        exists v', dict_get c' d = Some v' /\ allowed sp d v') /\
  (forall (hp_index : Z) (idx : step) (vals : list value),
      vals <> [] ->
      let length := Z.of_nat (List.length vals) in
      0 <= (hp_index + step_Z idx + length) mod length < length /\
      exists x,
        py_getitem vals ((hp_index + step_Z idx + length) mod length) = Ok x /\
        In x vals).
Proof.
  intros [= <-] Hc. simpl. split.
  - destruct (pick_loop_in_space
                (Build_stochastic_ruler sp mt me (help_neigh_struct sp)) c
                (fun d vals v => help_neigh_struct_indexed sp d vals v)
                Hc [] w (List.Forall_nil _)) as (c' & w' & Hrun & Hc' & Hkeys).
    exists c', w'. split; [exact Hrun|].
    intros d Hd. destruct (proj2 (Hkeys d) (or_intror Hd)) as [v' Hv'].
    exists v'. split; [exact Hv'|].
    apply dict_get_in in Hv'. simpl in Hc'. unfold in_space in Hc'.
    rewrite Forall_forall in Hc'. apply (Hc' (d, v')).
    apply list_elem_of_In. exact Hv'.
  - intros hp_index idx vals Hne.
    assert (Hlen : 0 < Z.of_nat (length vals)).
    { destruct vals; simpl; [congruence|lia]. }
    split; [apply neighbour_index_in_range, Hlen|].
    destruct (py_getitem_in_range vals _
                (neighbour_index_in_range hp_index idx _ Hlen))
      as (x & Hx & Hlook).
    exists x. split; [exact Hx|].
    apply list_elem_of_In. eapply list_elem_of_lookup_2, Hlook.
Qed.

End NeighbourValidity.

(** ** The comparison loop *)

Lemma Qltb_true (x y : Q) : Qltb x y = true <-> Qlt x y.
Proof.
  unfold Qltb. rewrite Qlt_alt. destruct (Qcompare x y); split; congruence.
Qed.

Lemma Qltb_false (x y : Q) : Qltb x y = false <-> ~ Qlt x y.
Proof.
  rewrite <- Qltb_true. destruct (Qltb x y); split; congruence.
Qed.

Lemma Qltb_asym (x y : Q) : Qltb x y = true -> Qltb y x = false.
Proof.
  rewrite Qltb_true, Qltb_false. intros Hxy Hyx.
  apply (Qlt_irrefl x). eapply Qlt_trans; eassumption.
Qed.

Lemma last_cons_cons {A : Type} (x y : A) (l : list A) :
  last (x :: y :: l) = last (y :: l).
Proof. reflexivity. Qed.

Section ComparisonLoop.
Context {value : Type} `{!PyStr value} {W : Type} `{!World value W}.

(** The two ways the comparison loop ends: at the first sample above its
    ruler, or with the budget used up. *)
Lemma for_loop_spec (self : stochastic_ruler value) (zk : config value)
  (n : nat) :
  forall (s : locals value) (w : W) s' w' draws,
    for_loop self n zk s w = Ok (s', w', draws) ->
    (exists pre h r,
        draws = pre ++ [(h, r)] /\ Forall fails pre /\ Qlt r h /\
        (length draws <= n)%nat /\
        s' = record_best (incr_k (set_draw s h r)) h (x_k s))
    \/
    (length draws = n /\ Forall fails draws /\
     s' = match last draws with
          | Some (h, r) => set_draw s h r
          | None => s
          end).
Proof.
  induction n as [|n IH]; intros s w s' w' draws Hrun.
  - injection Hrun as <- <- <-. right. repeat split. constructor.
  - cbn [for_loop] in Hrun.
    destruct (run self zk w) as [[h w1]|e]; [|discriminate].
    cbn [mbind result_bind] in Hrun.
    destruct (uniform w1) as [r w2].
    destruct (Qltb r h) eqn:Hcmp.
    + injection Hrun as <- <- <-. left. exists [], h, r.
      repeat split; [constructor|by apply Qltb_true|simpl; lia].
    + destruct (for_loop self n zk (set_draw s h r) w2)
        as [[[s1 w3] draws1]|e] eqn:Hrec; [|discriminate].
      cbn [mbind result_bind] in Hrun. injection Hrun as <- <- <-.
      assert (Hfail : fails (h, r)) by (by apply Qltb_false).
      destruct (IH _ _ _ _ _ Hrec)
        as [(pre & h' & r' & -> & Hpre & Hpass & Hlen & ->)
           |(Hlen & Hall & ->)].
      * left. exists ((h, r) :: pre), h', r'.
        repeat split; [by constructor|exact Hpass|simpl in *; lia].
      * right. repeat split; [simpl; lia|by constructor|].
        destruct draws1 as [|[h' r'] draws1]; [reflexivity|].
        rewrite last_cons_cons.
        destruct (last ((h', r') :: draws1)) as [[? ?]|] eqn:Hlast;
          [reflexivity|].
        apply last_None in Hlast. discriminate.
Qed.

Lemma record_best_fields (s : locals value) (h : Q) (x : config value) :
  k (record_best s h x) = k s /\ x_k (record_best s h x) = x_k s /\
  h_of_z (record_best s h x) = h_of_z s /\ u (record_best s h x) = u s /\
  (Qlt h (minh_of_z s) ->
     minh_of_z (record_best s h x) = h /\ opt_x (record_best s h x) = Config x) /\
  (~ Qlt h (minh_of_z s) ->
     minh_of_z (record_best s h x) = minh_of_z s /\
     opt_x (record_best s h x) = opt_x s).
Proof.
  unfold record_best. destruct (Qltb h (minh_of_z s)) eqn:Hcmp; simpl.
  - apply Qltb_true in Hcmp. repeat split; tauto.
  - apply Qltb_false in Hcmp. repeat split; tauto.
Qed.

Lemma record_best_le (s : locals value) (h : Q) (x : config value) :
  Qle (minh_of_z (record_best s h x)) (minh_of_z s) /\
  Qle (minh_of_z (record_best s h x)) h.
Proof.
  unfold record_best. destruct (Qltb h (minh_of_z s)) eqn:Hcmp; simpl.
  - apply Qltb_true in Hcmp. split; [by apply Qlt_le_weak|apply Qle_refl].
  - apply Qltb_false in Hcmp. split; [apply Qle_refl|by apply Qnot_lt_le].
Qed.

End ComparisonLoop.

(** ** One pass of the main loop *)

Section MainLoopPass.
Context {value : Type} `{!PyStr value} {W : Type} `{!World value W}.

Lemma while_body_spec (self : stochastic_ruler value) (s : locals value)
  (w : W) s' w' p :
  while_body self s w = Ok (s', w', p) ->
  exists zk w1 iter s1 h r,
    random_pick_from_neighbourhood_structure self (x_k s) w = Ok (zk, w1) /\
    Mf (k s) = Ok iter /\
    for_loop self (Z.to_nat iter) zk s w1 = Ok (s1, w', pass_draws p) /\
    p = Pass (k s) (x_k s) zk (pass_draws p) /\
    h_of_z s1 = Some h /\ u s1 = Some r /\
    s' = if Qltb h r then record_best (incr_k (set_x_k s1 zk)) h zk else s1.
Proof.
  unfold while_body. intros Hrun.
  destruct (random_pick_from_neighbourhood_structure self (x_k s) w)
    as [[zk w1]|e] eqn:Hpick; [|discriminate].
  cbn [mbind result_bind] in Hrun.
  destruct (Mf (k s)) as [iter|e] eqn:Hiter; [|discriminate].
  cbn [mbind result_bind] in Hrun.
  destruct (for_loop self (Z.to_nat iter) zk s w1)
    as [[[s1 w2] draws]|e] eqn:Hloop; [|discriminate].
  cbn [mbind result_bind] in Hrun.
  destruct (h_of_z s1) as [h|] eqn:Hh; [|discriminate].
  destruct (u s1) as [r|] eqn:Hr; [|discriminate].
  cbn [mbind result_bind read_local] in Hrun.
  injection Hrun as <- <- <-.
  exists zk, w1, iter, s1, h, r. repeat split; assumption.
Qed.

Lemma Forall_fails_not_Exists (draws : list (Q * Q)) :
  Forall fails draws -> ~ Exists (fun d => Qlt (snd d) (fst d)) draws.
Proof.
  intros Hall Hex. apply Exists_exists in Hex as (d & Hin & Hd).
  rewrite Forall_forall in Hall. exact (Hall d Hin Hd).
Qed.

Lemma accepted_pass (self : stochastic_ruler value) (s : locals value)
  (w : W) s' w' p :
  while_body self s w = Ok (s', w', p) ->
  Exists (fun d => Qlt (snd d) (fst d)) (pass_draws p) ->
  exists h r,
    last (pass_draws p) = Some (h, r) /\ Qlt r h /\
    s' = record_best (incr_k (set_draw s h r)) h (x_k s).
Proof.
  intros Hrun Hex.
  destruct (while_body_spec _ _ _ _ _ _ Hrun)
    as (zk & w1 & iter & s1 & h & r & _ & _ & Hloop & _ & Hh & Hr & ->).
  destruct (for_loop_spec _ _ _ _ _ _ _ _ Hloop)
    as [(pre & h' & r' & Hdraws & _ & Hpass & _ & ->)|(_ & Hall & _)].
  - exists h', r'. split; [rewrite Hdraws; apply last_snoc|].
    split; [exact Hpass|].
    destruct (record_best_fields (incr_k (set_draw s h' r')) h' (x_k s))
      as (_ & _ & Hh' & Hr' & _).
    rewrite Hh' in Hh. rewrite Hr' in Hr. simpl in Hh, Hr.
    injection Hh as <-. injection Hr as <-.
    apply Qltb_true in Hpass. rewrite (Qltb_asym _ _ Hpass). reflexivity.
  - exfalso. exact (Forall_fails_not_Exists _ Hall Hex).
Qed.

(** C2: in a pass where some sample exceeds its ruler, the current point is
    kept, the counter advances by one, and a sample below [minh_of_z] is
    recorded together with the current point [x_k], not the candidate. *)
Theorem accepted_pass_keeps_current (self : stochastic_ruler value)
  (s : locals value) (w : W) s' w' p :
  while_body self s w = Ok (s', w', p) ->
  Exists (fun d => Qlt (snd d) (fst d)) (pass_draws p) ->
  exists h r,
    last (pass_draws p) = Some (h, r) /\ Qlt r h /\
    x_k s' = x_k s /\ k s' = k s + 1 /\
    (Qlt h (minh_of_z s) ->
       minh_of_z s' = h /\ opt_x s' = Config (x_k s)) /\
    (~ Qlt h (minh_of_z s) ->
       minh_of_z s' = minh_of_z s /\ opt_x s' = opt_x s).
Proof.
  intros Hrun Hex.
  destruct (accepted_pass _ _ _ _ _ _ Hrun Hex) as (h & r & Hlast & Hpass & ->).
  exists h, r.
  destruct (record_best_fields (incr_k (set_draw s h r)) h (x_k s))
    as (Hk & Hx & _ & _ & Hyes & Hno).
  repeat split; try assumption; try (apply Hyes; assumption);
    try (apply Hno; assumption).
Qed.

(** When the budget is used up and the last sample is below its ruler, the
    candidate becomes the current point and is recorded with that sample. *)
Lemma forced_pass (self : stochastic_ruler value) (s : locals value)
  (w : W) s' w' p h r :
  while_body self s w = Ok (s', w', p) ->
  Forall fails (pass_draws p) ->
  last (pass_draws p) = Some (h, r) ->
  Qlt h r ->
  x_k s' = pass_zk p /\ k s' = k s + 1 /\
  (Qlt h (minh_of_z s) ->
     minh_of_z s' = h /\ opt_x s' = Config (pass_zk p)) /\
  (~ Qlt h (minh_of_z s) ->
     minh_of_z s' = minh_of_z s /\ opt_x s' = opt_x s).
Proof.
  intros Hrun Hall Hlast Hlt.
  destruct (while_body_spec _ _ _ _ _ _ Hrun)
    as (zk & w1 & iter & s1 & h0 & r0 & _ & _ & Hloop & Hp & Hh & Hr & ->).
  rewrite Hp. cbn [pass_zk].
  destruct (for_loop_spec _ _ _ _ _ _ _ _ Hloop)
    as [(pre & h' & r' & Hdraws & _ & Hpass & _ & _)|(_ & _ & ->)].
  - exfalso. rewrite Hdraws in Hall.
    apply Forall_app in Hall as [_ Hall]. inversion Hall as [|? ? Hf _]; subst.
    exact (Hf Hpass).
  - rewrite Hlast in Hh, Hr |- *. simpl in Hh, Hr.
    injection Hh as <-. injection Hr as <-.
    apply Qltb_true in Hlt. rewrite Hlt.
    destruct (record_best_fields (incr_k (set_x_k (set_draw s h r) zk)) h zk)
      as (Hk & Hx & _ & _ & Hyes & Hno).
    repeat split; try assumption; try (apply Hyes; assumption);
      try (apply Hno; assumption).
Qed.

(** When the budget is used up and the last sample equals its ruler,
    nothing but the two draws is assigned: the counter does not advance. *)
Lemma tied_pass (self : stochastic_ruler value) (s : locals value)
  (w : W) s' w' p h r :
  while_body self s w = Ok (s', w', p) ->
  Forall fails (pass_draws p) ->
  last (pass_draws p) = Some (h, r) ->
  ~ Qlt h r ->
  s' = set_draw s h r.
Proof.
  intros Hrun Hall Hlast Hlt.
  destruct (while_body_spec _ _ _ _ _ _ Hrun)
    as (zk & w1 & iter & s1 & h0 & r0 & _ & _ & Hloop & Hp & Hh & Hr & ->).
  destruct (for_loop_spec _ _ _ _ _ _ _ _ Hloop)
    as [(pre & h' & r' & Hdraws & _ & Hpass & _ & _)|(_ & _ & ->)].
  - exfalso. rewrite Hdraws in Hall.
    apply Forall_app in Hall as [_ Hall]. inversion Hall as [|? ? Hf _]; subst.
    exact (Hf Hpass).
  - rewrite Hlast in Hh, Hr |- *. simpl in Hh, Hr.
    injection Hh as <-. injection Hr as <-.
    apply Qltb_false in Hlt. rewrite Hlt. reflexivity.
Qed.

End MainLoopPass.

(** ** The whole run *)

Section WholeRun.
Context {value : Type} `{!PyStr value} {W : Type} `{!World value W}.

Lemma last_in {A : Type} (l : list A) (x : A) : last l = Some x -> In x l.
Proof.
  intros Hlast. apply last_Some in Hlast as [l' ->].
  apply in_or_app. right. left. reflexivity.
Qed.

Lemma while_body_minh (self : stochastic_ruler value) (s : locals value)
  (w : W) s' w' p :
  while_body self s w = Ok (s', w', p) ->
  Qle (minh_of_z s') (minh_of_z s) /\
  forall h, deciding_sample p = Some h -> Qle (minh_of_z s') h.
Proof.
  intros Hrun.
  destruct (while_body_spec _ _ _ _ _ _ Hrun)
    as (zk & w1 & iter & s1 & h & r & _ & _ & Hloop & _ & Hh & Hr & ->).
  unfold deciding_sample.
  destruct (for_loop_spec _ _ _ _ _ _ _ _ Hloop)
    as [(pre & h' & r' & -> & _ & Hpass & _ & ->)|(_ & Hall & ->)].
  - destruct (record_best_fields (incr_k (set_draw s h' r')) h' (x_k s))
      as (_ & _ & Hh' & Hr' & _).
    rewrite Hh' in Hh. rewrite Hr' in Hr. simpl in Hh, Hr.
    injection Hh as <-. injection Hr as <-.
    apply Qltb_true in Hpass. rewrite (Qltb_asym _ _ Hpass).
    rewrite last_snoc, Hpass. simpl.
    destruct (record_best_le (incr_k (set_draw s h' r')) h' (x_k s))
      as [Hle1 Hle2].
    split; [exact Hle1|]. intros h0 [= <-]. exact Hle2.
  - destruct (last (pass_draws p)) as [[h' r']|] eqn:Hlast.
    + simpl in Hh, Hr. injection Hh as <-. injection Hr as <-.
      assert (Hfail : Qltb r' h' = false).
      { apply Qltb_false. rewrite Forall_forall in Hall.
        apply (Hall (h', r')). apply list_elem_of_In, last_in, Hlast. }
      rewrite Hfail. simpl.
      destruct (Qltb h' r') eqn:Hforced.
      * destruct (record_best_le
                    (incr_k (set_x_k (set_draw s h' r') zk)) h' zk)
          as [Hle1 Hle2].
        split; [exact Hle1|]. intros h0 [= <-]. exact Hle2.
      * split; [apply Qle_refl|discriminate].
    + split; [|discriminate].
      destruct (Qltb h r); [|apply Qle_refl].
      apply (record_best_le (incr_k (set_x_k s zk)) h zk).
Qed.

Lemma while_loop_minh (self : stochastic_ruler value) (fuel : nat) :
  forall (s : locals value) (w : W) log m o w' log',
    while_loop self fuel s w log = Some (Ok (m, o, w', log')) ->
    Qle m (minh_of_z s) /\
    exists new, log' = log ++ new /\
      forall p h, In p new -> deciding_sample p = Some h -> Qle m h.
Proof.
  induction fuel as [|fuel IH]; intros s w log m o w' log' Hrun;
    cbn [while_loop] in Hrun;
    destruct (k s <? maxevals self + 1).
  - discriminate.
  - injection Hrun as <- <- <- <-. split; [apply Qle_refl|].
    exists []. split; [by rewrite app_nil_r|]. intros p h [].
  - destruct (while_body self s w) as [[[s1 w1] p1]|e] eqn:Hbody;
      [|discriminate].
    destruct (while_body_minh _ _ _ _ _ _ Hbody) as [Hle Hdec].
    destruct (IH _ _ _ _ _ _ _ Hrun) as (Hm & new & -> & Hnew).
    split; [eapply Qle_trans; eassumption|].
    exists (p1 :: new). split; [by rewrite <- app_assoc|].
    intros p h [<-|Hin] Hp.
    + eapply Qle_trans; [exact Hm|]. apply Hdec, Hp.
    + eapply Hnew; eassumption.
  - injection Hrun as <- <- <- <-. split; [apply Qle_refl|].
    exists []. split; [by rewrite app_nil_r|]. intros p h [].
Qed.

(** C9 (amended): the returned [minh_of_z] is at most 1 and at most the
    deciding (last drawn) sample of every accepted or forced pass. *)
Theorem min_score_bounds_deciding_samples (self : stochastic_ruler value)
  (fuel : nat) (w : W) m o w' log :
  SR_Algo self fuel w = Some (Ok (m, o, w', log)) ->
  Qle m 1 /\
  forall p h, In p log -> deciding_sample p = Some h -> Qle m h.
Proof.
  unfold SR_Algo. intros Hrun.
  destruct (initial_choice_loop (space self) []) as [c0|e]; [|discriminate].
  destruct (while_loop_minh _ _ _ _ _ _ _ _ _ Hrun) as (Hle & new & -> & Hnew).
  split; [exact Hle|]. intros p h Hin. apply Hnew. exact Hin.
Qed.

Lemma initial_choice_loop_total (sp : list (string * list value)) :
  nonempty_dimensions sp ->
  forall acc, exists c0, initial_choice_loop sp acc = Ok c0.
Proof.
  induction 1 as [|[i vals] sp Hne _ IH]; intros acc; simpl.
  - eexists; reflexivity.
  - destruct vals as [|x vals]; [simpl in Hne; congruence|].
    unfold py_getitem. simpl. apply IH.
Qed.

(** C5 (amended): with [maxevals <= 0] the search on a space whose
    dimensions all have at least one value returns the sentinel [(1, [])]
    whatever the loop allowance, without raising, without a single pass of
    the main loop and leaving the world untouched: no model is scored, no
    number drawn. *)
Theorem nonpositive_maxevals_returns_sentinel
  (sp : list (string * list value)) (mt : string) (me : Z)
  (self : stochastic_ruler value) (fuel : nat) (w : W) :
  init sp mt me = Ok self ->
  nonempty_dimensions sp ->
  me <= 0 ->
  SR_Algo self fuel w = Some (Ok (1%Q, EmptyList, w, [])).
Proof.
  intros [= <-] Hsp Hme. unfold SR_Algo. simpl.
  destruct (initial_choice_loop_total sp Hsp []) as [c0 ->].
  destruct fuel; cbn [while_loop k maxevals];
    destruct (Z.ltb_spec 1 (me + 1)); (lia || reflexivity).
Qed.

End WholeRun.

(** ** The locals of the acceptance test are bound *)

Section LocalsBound.
Context {value : Type} `{!PyStr value} {W : Type} `{!World value W}.

Lemma py_getitem_raises {A : Type} (l : list A) (i : Z) (e : exn) :
  py_getitem l i = Raise e -> e = IndexError.
Proof.
  unfold py_getitem.
  destruct ((_ <? 0) || (_ <=? _)); [congruence|].
  destruct (l !! _); congruence.
Qed.

Lemma pick_loop_raises (self : stochastic_ruler value)
  (items : config value) :
  forall (set_hp : config value) (w : W) (e : exn),
    pick_loop self items set_hp w = Raise e -> is_core_error e.
Proof.
  induction items as [|[hp v] items IH]; intros set_hp w e; cbn [pick_loop].
  - discriminate.
  - destruct (Neigh_dict self !! key_of hp v); [|intros [= <-]; exact I].
    destruct (randint w) as [idx w1].
    destruct (dict_get (space self) hp) as [vals|]; [|intros [= <-]; exact I].
    destruct (Z.of_nat (length vals) =? 0); [intros [= <-]; exact I|].
    destruct (py_getitem vals _) as [x|e'] eqn:Hget; cbn [mbind result_bind].
    + apply IH.
    + intros [= <-]. apply py_getitem_raises in Hget as ->. exact I.
Qed.

Lemma run_raises (self : stochastic_ruler value) (neigh : config value)
  (w : W) (e : exn) :
  run self neigh w = Raise e -> is_core_error e.
Proof.
  unfold run, random_pick_from_neighbourhood_structure.
  destruct (pick_loop self neigh [] w) as [[neigh' w1]|e'] eqn:Hpick;
    cbn [mbind result_bind].
  - destruct (score neigh' w1); [discriminate|intros [= <-]; exact I].
  - intros [= <-]. eapply pick_loop_raises, Hpick.
Qed.

Lemma for_loop_raises (self : stochastic_ruler value) (zk : config value)
  (n : nat) :
  forall (s : locals value) (w : W) (e : exn),
    for_loop self n zk s w = Raise e -> is_core_error e.
Proof.
  induction n as [|n IH]; intros s w e; cbn [for_loop]; [discriminate|].
  destruct (run self zk w) as [[h w1]|e'] eqn:Hrun; cbn [mbind result_bind].
  - destruct (uniform w1) as [r w2]. destruct (Qltb r h); [discriminate|].
    destruct (for_loop self n zk (set_draw s h r) w2)
      as [[[s1 w3] draws]|e''] eqn:Hrec; cbn [mbind result_bind];
      [discriminate|].
    intros [= <-]. eapply IH, Hrec.
  - intros [= <-]. eapply run_raises, Hrun.
Qed.

Lemma for_loop_binds (self : stochastic_ruler value) (zk : config value)
  (n : nat) (s : locals value) (w : W) s' w' draws :
  (1 <= n)%nat ->
  for_loop self n zk s w = Ok (s', w', draws) ->
  draws <> [] /\ is_Some (h_of_z s') /\ is_Some (u s').
Proof.
  intros Hn Hloop.
  destruct (for_loop_spec _ _ _ _ _ _ _ _ Hloop)
    as [(pre & h & r & -> & _ & _ & _ & ->)|(Hlen & _ & ->)].
  - split; [destruct pre; discriminate|].
    destruct (record_best_fields (incr_k (set_draw s h r)) h (x_k s))
      as (_ & _ & -> & -> & _).
    split; eexists; reflexivity.
  - destruct (last draws) as [[h r]|] eqn:Hlast.
    + split; [intros ->; discriminate|]. split; eexists; reflexivity.
    + apply last_None in Hlast as ->. simpl in Hlen. lia.
Qed.

Lemma while_body_bound (self : stochastic_ruler value) (s : locals value)
  (w : W) :
  1 <= k s ->
  match while_body self s w with
  | Raise e => is_core_error e
  | Ok (s', w', p) =>
      1 <= k s' /\ pass_draws p <> [] /\
      is_Some (h_of_z s') /\ is_Some (u s')
  end.
Proof.
  intros Hk. unfold while_body, random_pick_from_neighbourhood_structure.
  destruct (pick_loop self (x_k s) [] w) as [[zk w1]|e] eqn:Hpick;
    cbn [mbind result_bind]; [|eapply pick_loop_raises, Hpick].
  destruct (Mf_defined (k s) Hk) as (iter & -> & Hiter).
  cbn [mbind result_bind].
  destruct (for_loop self (Z.to_nat iter) zk s w1)
    as [[[s1 w2] draws]|e] eqn:Hloop; cbn [mbind result_bind];
    [|eapply for_loop_raises, Hloop].
  assert (Hn : (1 <= Z.to_nat iter)%nat) by lia.
  destruct (for_loop_binds _ _ _ _ _ _ _ _ Hn Hloop)
    as (Hdraws & [h Hh] & [r Hr]).
  assert (Hk1 : 1 <= k s1).
  { destruct (for_loop_spec _ _ _ _ _ _ _ _ Hloop)
      as [(pre & h' & r' & _ & _ & _ & _ & ->)|(_ & _ & ->)].
    - destruct (record_best_fields (incr_k (set_draw s h' r')) h' (x_k s))
        as (-> & _). simpl. lia.
    - destruct (last draws) as [[? ?]|]; simpl; lia. }
  rewrite Hh, Hr. cbn [read_local mbind result_bind pass_draws].
  destruct (Qltb h r).
  - destruct (record_best_fields (incr_k (set_x_k s1 zk)) h zk)
      as (-> & _ & -> & -> & _). simpl. rewrite Hh, Hr.
    repeat split; [lia|exact Hdraws|eexists; reflexivity..].
  - rewrite Hh, Hr. repeat split; [exact Hk1|exact Hdraws|eexists; reflexivity..].
Qed.

Lemma while_loop_bound (self : stochastic_ruler value) (fuel : nat) :
  forall (s : locals value) (w : W) log,
    1 <= k s ->
    Forall (fun p => pass_draws p <> []) log ->
    match while_loop self fuel s w log with
    | None => True
    | Some (Raise e) => is_core_error e
    | Some (Ok (_, _, _, log')) => Forall (fun p => pass_draws p <> []) log'
    end.
Proof.
  induction fuel as [|fuel IH]; intros s w log Hk Hlog; cbn [while_loop];
    destruct (k s <? maxevals self + 1); try exact I; try exact Hlog.
  pose proof (while_body_bound self s w Hk) as Hbody.
  destruct (while_body self s w) as [[[s1 w1] p1]|e]; [|exact Hbody].
  destruct Hbody as (Hk1 & Hdraws & _).
  apply IH; [exact Hk1|].
  apply Forall_app. split; [exact Hlog|]. constructor; [exact Hdraws|constructor].
Qed.

(** C10: for every k >= 1 the budget [Mf k] is at least 1, so every pass of
    the main loop draws at least one (sample, ruler) pair, leaves [h_of_z]
    and [u] bound, and no run raises [UnboundLocalError] for [h_of_z] or
    for [u]. *)
Theorem budget_positive_locals_bound (j : Z) :
  1 <= j ->
  (exists m, Mf j = Ok m /\ 1 <= m) /\
  (forall (self : stochastic_ruler value) (s : locals value) (w : W),
      k s = j ->
      (forall name, In name ["h_of_z"; "u"] ->
                    while_body self s w <> Raise (UnboundLocalError name)) /\
      (forall s' w' p, while_body self s w = Ok (s', w', p) ->
         pass_draws p <> [] /\ is_Some (h_of_z s') /\ is_Some (u s'))) /\
  (forall (self : stochastic_ruler value) (fuel : nat) (w : W),
      (forall name, In name ["h_of_z"; "u"] ->
          SR_Algo self fuel w <> Some (Raise (UnboundLocalError name))) /\
      (forall m o w' log, SR_Algo self fuel w = Some (Ok (m, o, w', log)) ->
         Forall (fun p => pass_draws p <> []) log)).
Proof.
  intros Hj. split; [apply Mf_defined, Hj|]. split.
  - intros self s w Hk. subst j.
    pose proof (while_body_bound self s w Hj) as Hbody. split.
    + intros name _ Hraise. rewrite Hraise in Hbody. exact Hbody.
    + intros s' w' p Hok. rewrite Hok in Hbody. tauto.
  - intros self fuel w. unfold SR_Algo.
    destruct (initial_choice_loop (space self) []) as [c0|e] eqn:Hinit.
    + pose proof (while_loop_bound self fuel
                    (Locals 1%Q EmptyList 1 c0 None None) w []
                    ltac:(simpl; lia) ltac:(constructor)) as Hloop.
      split.
      * intros name _ Hraise. rewrite Hraise in Hloop. exact Hloop.
      * intros m o w' log Hok. rewrite Hok in Hloop. exact Hloop.
    + split; [|discriminate]. intros name _ [= ->].
      clear -Hinit. revert Hinit. generalize (@nil (string * value)).
      induction (space self) as [|[i vals] sp IH]; intros acc; simpl;
        [discriminate|].
      destruct (py_getitem vals 0) as [x|e] eqn:Hget; cbn [mbind result_bind].
      * apply IH.
      * intros [= ->]. apply py_getitem_raises in Hget. discriminate.
Qed.

End LocalsBound.

(** ** Runs in scripted worlds *)

Lemma random_pick_valid_witness :
  (exists c' w',
      random_pick_from_neighbourhood_structure (World0 := scripted peak_cost)
        (searcher 1) [("x", PInt 1)] (Script [StepDown] [] 0) = Ok (c', w') /\
      forall d, In d (map fst [("x", PInt 1)]) ->
        exists v', dict_get c' d = Some v' /\ allowed grid d v') /\
  (forall (hp_index : Z) (idx : step) (vals : list pyval),
      vals <> [] ->
      let length := Z.of_nat (List.length vals) in
      0 <= (hp_index + step_Z idx + length) mod length < length /\
      exists x,
        py_getitem vals ((hp_index + step_Z idx + length) mod length) = Ok x /\
        In x vals).
Proof.
  apply (random_pick_valid (World0 := scripted peak_cost)
           grid "DTC" 1 (searcher 1) [("x", PInt 1)] (Script [StepDown] [] 0)).
  - reflexivity.
  - constructor; [|constructor].
    exists [PInt 1; PInt 2; PInt 3]. split; [reflexivity|]. simpl. tauto.
Defined.

(** Wrap-around: from index 0 a step of -1 reads the last value. *)
Example random_pick_wraps :
  random_pick_from_neighbourhood_structure (World0 := scripted peak_cost)
    (searcher 1) [("x", PInt 1)] (Script [StepDown] [] 0)
  = Ok ([("x", PInt 3)], Script [] [] 0).
Proof. reflexivity. Qed.

Lemma accepted_pass_keeps_current_witness :
  exists h r,
    last [((3 # 4)%Q, (1 # 2)%Q)] = Some (h, r) /\ Qlt r h /\
    [("x", PInt 1)] = x_k start /\ 2 = k start + 1 /\
    (Qlt h (minh_of_z start) ->
       (3 # 4)%Q = h /\
       Config [("x", PInt 1)] = Config (x_k start)) /\
    (~ Qlt h (minh_of_z start) ->
       (3 # 4)%Q = minh_of_z start /\
       Config [("x", PInt 1)] = opt_x start).
Proof.
  apply (accepted_pass_keeps_current (World0 := scripted (constant_cost (3 # 4)))
           (searcher 1) start (Script [StepUp] [] 0)
           (Locals (3 # 4) (Config [("x", PInt 1)]) 2 [("x", PInt 1)]
              (Some (3 # 4)%Q) (Some (1 # 2)%Q))
           (Script [] [] 1)
           (Pass 1 [("x", PInt 1)] [("x", PInt 2)] [((3 # 4)%Q, (1 # 2)%Q)])).
  - reflexivity.
  - left. reflexivity.
Defined.

(** C1 (at the failing input): the only sample of the first pass equals
    its ruler, so no sample exceeds its ruler and the budget [Mf 1 = 1] is
    used up; yet the candidate [{x: 2}] is not made the current point and
    the counter stays at 1. *)
Theorem exhausted_pass_with_tie_not_accepted :
  exists s' w' p,
    while_body (World0 := scripted (constant_cost (1 # 2)))
      (searcher 1) start (Script [StepUp] [1 # 2]%Q 0) = Ok (s', w', p) /\
    pass_draws p = [((1 # 2)%Q, (1 # 2)%Q)] /\
    Forall fails (pass_draws p) /\
    Mf (k start) = Ok (Z.of_nat (length (pass_draws p))) /\
    pass_zk p = [("x", PInt 2)] /\
    x_k s' = [("x", PInt 1)] /\
    k s' = k start /\
    minh_of_z s' = minh_of_z start /\ opt_x s' = opt_x start.
Proof.
  do 3 eexists. split; [reflexivity|]. simpl.
  repeat split. constructor; [|constructor]. unfold fails. simpl.
  apply Qlt_irrefl.
Qed.

(** With every sample equal to its ruler the counter never advances and
    the run does not return, whatever the number of passes allowed. *)
Lemma tie_forever_never_returns (fuel : nat) :
  forall (m : Q) (o : py_opt_x pyval) (a b : option Q) (n : nat) log,
    while_loop (World0 := scripted (constant_cost (1 # 2))) (searcher 1) fuel
      (Locals m o 1 [("x", PInt 1)] a b) (Script [] [] n) log = None.
Proof.
  induction fuel as [|fuel IH]; intros m o a b n log; [reflexivity|].
  cbn [while_loop k maxevals searcher].
  change (1 <? 1 + 1) with true. cbv iota.
  replace (while_body (World0 := scripted (constant_cost (1 # 2)))
             (searcher 1) (Locals m o 1 [("x", PInt 1)] a b) (Script [] [] n))
    with (Ok (Locals m o 1 [("x", PInt 1)] (Some (1 # 2)%Q) (Some (1 # 2)%Q),
              Script [] [] (S n),
              Pass 1 [("x", PInt 1)] [("x", PInt 1)] [((1 # 2)%Q, (1 # 2)%Q)]))
    by (vm_compute; reflexivity).
  apply IH.
Qed.

(** C3: [run] perturbs the configuration it is given once more and has the
    world score that second neighbour; in the scripted run below the
    candidate is [{x: 1}] (cost 1) while the model scored is [{x: 2}]
    (cost 0), and the search returns cost 0 together with [{x: 1}]. *)
Theorem run_scores_a_second_neighbour :
  (forall (value : Type) (PS : PyStr value) (W : Type) (Wd : World value W)
          (self : stochastic_ruler value) (zk neigh' : config value)
          (w w1 : W),
      random_pick_from_neighbourhood_structure self zk w = Ok (neigh', w1) ->
      run self zk w = match score neigh' w1 with
                      | Cost h w2 => Ok (h, w2)
                      | Fails msg => Raise (External msg)
                      end) /\
  (random_pick_from_neighbourhood_structure (World0 := scripted peak_cost)
     (searcher 1) [("x", PInt 1)] (Script [StepUp] [1 # 2]%Q 0)
   = Ok ([("x", PInt 2)], Script [] [1 # 2]%Q 0) /\
   run (World0 := scripted peak_cost)
     (searcher 1) [("x", PInt 1)] (Script [StepUp] [1 # 2]%Q 0)
   = Ok (peak_cost [("x", PInt 2)] 0, Script [] [1 # 2]%Q 1) /\
   ~ Qeq (peak_cost [("x", PInt 2)] 0) (peak_cost [("x", PInt 1)] 0)) /\
  SR_Algo (World0 := scripted peak_cost)
    (searcher 1) 1 (Script [StepStay; StepUp] [1 # 2]%Q 0)
  = Some (Ok (0%Q, Config [("x", PInt 1)], Script [] [] 1,
              [Pass 1 [("x", PInt 1)] [("x", PInt 1)] [(0%Q, (1 # 2)%Q)]])).
Proof.
  split; [|split].
  - intros value PS W Wd self zk neigh' w w1 Hpick. unfold run.
    rewrite Hpick. reflexivity.
  - repeat split. discriminate.
  - reflexivity.
Qed.

Lemma run_scores_a_second_neighbour_witness :
  run (World0 := scripted peak_cost)
    (searcher 1) [("x", PInt 2)] (Script [StepDown] [] 0)
  = match score (World := scripted peak_cost)
            [("x", PInt 1)] (Script [] [] 0) with
    | Cost h w2 => Ok (h, w2)
    | Fails msg => Raise (External msg)
    end.
Proof.
  apply (proj1 run_scores_a_second_neighbour pyval _ script
           (scripted peak_cost) (searcher 1) [("x", PInt 2)] [("x", PInt 1)]
           (Script [StepDown] [] 0) (Script [] [] 0)).
  reflexivity.
Defined.

(** C9 (as stated, refuted): in the 15th pass, which is accepted, the
    first sample 0.1 fails its ruler and is never compared to
    [minh_of_z]; the run returns 0.9. *)
Lemma min_score_above_an_observed_sample :
  exists w' log,
    SR_Algo (World0 := scripted late_cost) (searcher 15) 20 (Script [] [] 0)
    = Some (Ok ((9 # 10)%Q, Config [("x", PInt 1)], w', log)) /\
    (exists p,
        In p log /\ deciding_sample p = Some (9 # 10)%Q /\
        In ((1 # 10)%Q, (1 # 2)%Q) (pass_draws p)) /\
    ~ bounds_all_samples (9 # 10)%Q log.
Proof.
  do 2 eexists. split; [vm_compute; reflexivity|].
  set (p := Pass 15 [("x", PInt 1)] [("x", PInt 1)]
              [((1 # 10)%Q, (1 # 2)%Q); ((9 # 10)%Q, (1 # 2)%Q)]).
  assert (Hin : In p (map (fun j => Pass j [("x", PInt 1)] [("x", PInt 1)]
                                      [(1%Q, (1 # 2)%Q)])
                        [1; 2; 3; 4; 5; 6; 7; 8; 9; 10; 11; 12; 13; 14]
                      ++ [p])).
  { apply in_or_app. right. left. reflexivity. }
  split.
  - exists p. split; [exact Hin|]. split; [reflexivity|]. left. reflexivity.
  - intros Hbound.
    specialize (Hbound p ((1 # 10)%Q, (1 # 2)%Q) Hin ltac:(discriminate)
                  ltac:(left; reflexivity)).
    revert Hbound. vm_compute. intros Hle. apply Hle. reflexivity.
Qed.

Lemma min_score_bounds_deciding_samples_witness :
  Qle 0 1 /\
  forall p h,
    In p [Pass 1 [("x", PInt 1)] [("x", PInt 1)] [(0%Q, (1 # 2)%Q)]] ->
    deciding_sample p = Some h -> Qle 0 h.
Proof.
  apply (min_score_bounds_deciding_samples (World0 := scripted peak_cost)
           (searcher 1) 1 (Script [StepStay; StepUp] [1 # 2]%Q 0)
           0%Q (Config [("x", PInt 1)]) (Script [] [] 1)).
  reflexivity.
Defined.

Lemma nonpositive_maxevals_returns_sentinel_witness :
  SR_Algo (World0 := scripted peak_cost) (searcher 0) 0 (Script [] [] 0)
  = Some (Ok (1%Q, EmptyList, Script [] [] 0, [])).
Proof.
  apply (nonpositive_maxevals_returns_sentinel (World0 := scripted peak_cost)
           grid "DTC" 0 (searcher 0) 0 (Script [] [] 0)).
  - reflexivity.
  - constructor; [discriminate|constructor].
  - lia.
Defined.

(** C5 (as stated, refuted): the space [{"a": []}] is accepted by the
    constructor, and with [maxevals = 0] the run on it raises [IndexError]
    instead of returning the sentinel. *)
Lemma nonpositive_maxevals_on_empty_dimension :
  exists self : stochastic_ruler pyval,
    init [("a", [])] "DTC" 0 = Ok self /\
    maxevals self <= 0 /\
    SR_Algo (World0 := scripted peak_cost) self 5 (Script [] [] 0)
    = Some (Raise IndexError) /\
    SR_Algo (World0 := scripted peak_cost) self 5 (Script [] [] 0)
    <> Some (Ok (1%Q, EmptyList, Script [] [] 0, [])).
Proof.
  eexists. split; [reflexivity|]. split; [simpl; lia|].
  split; [reflexivity|discriminate].
Qed.

(** On a space with an empty dimension the run raises before the loop. *)
Example empty_dimension_raises :
  SR_Algo (World0 := scripted peak_cost)
    (Build_stochastic_ruler [("a", [])] "DTC" 0 (help_neigh_struct [("a", [])]))
    0 (Script [] [] 0)
  = Some (Raise IndexError).
Proof. reflexivity. Qed.

Lemma budget_positive_locals_bound_witness :
  exists m, Mf 1 = Ok m /\ 1 <= m.
Proof.
  apply (proj1 (budget_positive_locals_bound (value := pyval)
                  (World0 := scripted peak_cost) 1 ltac:(lia))).
Defined.

(** * Further properties of the code *)

(** ** The failure budget in closed form *)

Lemma log5_unique (n m1 m2 : Z) :
  0 <= m1 -> 0 <= m2 ->
  5 ^ m1 <= n < 5 ^ (m1 + 1) -> 5 ^ m2 <= n < 5 ^ (m2 + 1) -> m1 = m2.
Proof.
  intros H1 H2 [Hlo1 Hhi1] [Hlo2 Hhi2].
  assert (Ha : 5 ^ m1 < 5 ^ (m2 + 1)) by lia.
  assert (Hb : 5 ^ m2 < 5 ^ (m1 + 1)) by lia.
  apply Z.pow_lt_mono_r_iff in Ha; [|lia|lia].
  apply Z.pow_lt_mono_r_iff in Hb; [|lia|lia].
  lia.
Qed.

Lemma Mf_between (j lo : Z) :
  0 <= lo -> 5 ^ lo <= j + 10 < 5 ^ (lo + 1) -> Mf j = Ok lo.
Proof.
  intros Hlo Hbounds. unfold Mf.
  assert (Hp : 0 < 5 ^ lo) by (apply Z.pow_pos_nonneg; lia).
  destruct (Z.leb_spec (j + 10) 0); [lia|]. f_equal.
  destruct (log5_spec (j + 10) ltac:(lia)) as [Hnn Hspec].
  eapply log5_unique; eassumption.
Qed.

(** X2: the budget is one comparison for the iterations 1 to 14, two for
    15 to 114 and three for 115 to 614. *)
Theorem Mf_thresholds (j : Z) :
  (1 <= j <= 14 -> Mf j = Ok 1) /\
  (15 <= j <= 114 -> Mf j = Ok 2) /\
  (115 <= j <= 614 -> Mf j = Ok 3).
Proof.
  repeat split; intros Hj; apply Mf_between; lia.
Qed.

Lemma Mf_thresholds_witness : Mf 100 = Ok 2.
Proof. apply (proj1 (proj2 (Mf_thresholds 100))). lia. Defined.

(** ** The neighbourhood index as a lookup table *)

Section IndexTable.
Context {value : Type} `{!PyStr value}.

Lemma last_assigned_origin (key : string) (es : list (string * Z)) (i : Z) :
  forall acc,
    last_assigned key es acc = Some i -> acc = Some i \/ In (key, i) es.
Proof.
  induction es as [|[key' i'] es IH]; intros acc Hlast; simpl in *; [auto|].
  destruct (IH _ Hlast) as [Hacc|Hin]; [|auto].
  destruct (String.eqb_spec key' key) as [->|Hne]; [|auto].
  injection Hacc as ->. auto.
Qed.

Lemma last_assigned_nodup (key : string) (es : list (string * Z)) (i : Z) :
  NoDup (map fst es) -> In (key, i) es ->
  forall acc, last_assigned key es acc = Some i.
Proof.
  induction es as [|[key' i'] es IH]; intros Hnd Hin acc; simpl in *; [tauto|].
  apply NoDup_cons in Hnd as [Hfresh Hnd].
  destruct Hin as [[= -> ->]|Hin].
  - rewrite String.eqb_refl.
    destruct (last_assigned key es (Some i)) as [i0|] eqn:Hlast.
    + destruct (last_assigned_origin _ _ _ _ Hlast) as [[= ->]|Hin];
        [reflexivity|].
      exfalso. apply Hfresh. apply list_elem_of_In.
      apply (in_map fst) in Hin. exact Hin.
    + pose proof (last_assigned_some key es (Some i) ltac:(eexists; reflexivity))
        as [? Hsome].
      congruence.
  - apply IH; assumption.
Qed.

Lemma dimension_entries_lookup (hp : string) (vals : list value) :
  forall (i0 : Z) (j : nat) (v : value),
    vals !! j = Some v ->
    In (key_of hp v, i0 + Z.of_nat j) (dimension_entries hp i0 vals).
Proof.
  induction vals as [|l vals IH]; intros i0 j v Hj; [discriminate|].
  destruct j as [|j]; simpl in Hj.
  - injection Hj as ->. left. f_equal. simpl. lia.
  - rewrite Nat2Z.inj_succ.
    replace (i0 + Z.succ (Z.of_nat j)) with (i0 + 1 + Z.of_nat j) by lia.
    right. apply IH, Hj.
Qed.

Lemma dimension_entries_origin (hp : string) (vals : list value)
  (key : string) (i : Z) :
  forall i0, In (key, i) (dimension_entries hp i0 vals) ->
    exists (j : nat) v,
      i = i0 + Z.of_nat j /\ vals !! j = Some v /\ key = key_of hp v.
Proof.
  induction vals as [|l vals IH]; intros i0 Hin; simpl in *; [tauto|].
  destruct Hin as [[= <- <-]|Hin].
  - exists 0%nat, l. repeat split. lia.
  - destruct (IH _ Hin) as (j & v & -> & Hj & ->).
    exists (S j), v. repeat split; [lia|exact Hj].
Qed.

Lemma space_entries_lookup (sp : list (string * list value)) (hp : string)
  (vals : list value) (j : nat) (v : value) :
  In (hp, vals) sp -> vals !! j = Some v ->
  In (key_of hp v, Z.of_nat j) (space_entries sp).
Proof.
  induction sp as [|[hp' vals'] sp IH]; simpl; [tauto|].
  intros [[= -> ->]|Hin] Hj; apply in_or_app.
  - left. apply (dimension_entries_lookup hp vals 0 j v Hj).
  - right. apply IH; assumption.
Qed.

Lemma space_entries_origin (sp : list (string * list value)) (key : string)
  (i : Z) :
  In (key, i) (space_entries sp) ->
  exists hp vals (j : nat) v,
    In (hp, vals) sp /\ i = Z.of_nat j /\ vals !! j = Some v /\
    key = key_of hp v.
Proof.
  induction sp as [|[hp' vals'] sp IH]; simpl; [tauto|].
  intros Hin. apply in_app_or in Hin as [Hin|Hin].
  - destruct (dimension_entries_origin _ _ _ _ _ Hin) as (j & v & -> & Hj & ->).
    exists hp', vals', j, v. repeat split; auto.
  - destruct (IH Hin) as (hp & vals & j & v & Hsp & -> & Hj & ->).
    exists hp, vals, j, v. repeat split; auto.
Qed.

Lemma help_neigh_struct_sound (sp : list (string * list value))
  (key : string) (i : Z) :
  help_neigh_struct sp !! key = Some i ->
  exists hp vals (j : nat) v,
    In (hp, vals) sp /\ i = Z.of_nat j /\ vals !! j = Some v /\
    key = key_of hp v.
Proof.
  rewrite help_neigh_struct_lookup. intros Hlast.
  destruct (last_assigned_origin _ _ _ _ Hlast) as [|Hin]; [discriminate|].
  apply space_entries_origin, Hin.
Qed.

Lemma help_neigh_struct_exact (sp : list (string * list value))
  (hp : string) (vals : list value) (j : nat) (v : value) :
  NoDup (map fst (space_entries sp)) ->
  In (hp, vals) sp -> vals !! j = Some v ->
  help_neigh_struct sp !! key_of hp v = Some (Z.of_nat j).
Proof.
  intros Hnd Hsp Hj. rewrite help_neigh_struct_lookup.
  apply last_assigned_nodup; [exact Hnd|].
  eapply space_entries_lookup; eassumption.
Qed.

(** X3: when no two (dimension, value) pairs of the space share a key, the
    index built by the constructor maps the key of the j-th value of every
    dimension to j. *)
Theorem Neigh_dict_round_trip (sp : list (string * list value))
  (mt : string) (me : Z) (self : stochastic_ruler value)
  (hp : string) (vals : list value) (j : nat) (v : value) :
  init sp mt me = Ok self ->
  NoDup (map fst (space_entries sp)) ->
  In (hp, vals) sp -> vals !! j = Some v ->
  Neigh_dict self !! key_of hp v = Some (Z.of_nat j).
Proof.
  intros [= <-] Hnd Hsp Hj. simpl. eapply help_neigh_struct_exact; eassumption.
Qed.

(** X4: every entry of the index built by the constructor is the key of a
    value of the space at the stored position, and a key is in the index
    exactly when some (dimension, value) pair of the space produces it. *)
Theorem Neigh_dict_entries (sp : list (string * list value))
  (mt : string) (me : Z) (self : stochastic_ruler value) (key : string) :
  init sp mt me = Ok self ->
  (forall i, Neigh_dict self !! key = Some i ->
     exists hp vals (j : nat) v,
       In (hp, vals) sp /\ i = Z.of_nat j /\ vals !! j = Some v /\
       key = key_of hp v) /\
  (is_Some (Neigh_dict self !! key) <->
   exists hp vals v, In (hp, vals) sp /\ In v vals /\ key = key_of hp v).
Proof.
  intros [= <-]. simpl. split; [apply help_neigh_struct_sound|]. split.
  - intros [i Hi].
    destruct (help_neigh_struct_sound _ _ _ Hi) as (hp & vals & j & v & H1 & _ & H3 & H4).
    exists hp, vals, v. repeat split; [exact H1| |exact H4].
    apply list_elem_of_In. eapply list_elem_of_lookup_2, H3.
  - intros (hp & vals & v & Hsp & Hv & ->).
    rewrite help_neigh_struct_lookup.
    destruct (space_entries_in sp hp vals v Hsp Hv) as [j Hj].
    eapply last_assigned_in, Hj.
Qed.

End IndexTable.

Lemma Neigh_dict_round_trip_witness :
  Neigh_dict (searcher 1) !! key_of "x" (PInt 3) = Some (Z.of_nat 2).
Proof.
  apply (Neigh_dict_round_trip grid "DTC" 1 (searcher 1) "x"
           [PInt 1; PInt 2; PInt 3] 2 (PInt 3)).
  - reflexivity.
  - apply (bool_decide_unpack _). vm_compute. exact I.
  - left. reflexivity.
  - reflexivity.
Defined.

Lemma Neigh_dict_entries_witness :
  (forall i, Neigh_dict (searcher 1) !! "x_2" = Some i ->
     exists hp vals (j : nat) v,
       In (hp, vals) grid /\ i = Z.of_nat j /\ vals !! j = Some v /\
       "x_2" = key_of hp v) /\
  (is_Some (Neigh_dict (searcher 1) !! "x_2") <->
   exists hp vals v, In (hp, vals) grid /\ In v vals /\ "x_2" = key_of hp v).
Proof.
  apply (Neigh_dict_entries grid "DTC" 1 (searcher 1) "x_2"). reflexivity.
Defined.

(** ** The shape of a perturbation *)

Lemma dict_set_fresh {V : Type} (d : list (string * V)) (key : string) (v : V) :
  ~ In key (map fst d) -> dict_set d key v = d ++ [(key, v)].
Proof.
  induction d as [|[k0 v0] d IH]; simpl; intros Hfresh; [reflexivity|].
  destruct (String.eqb_spec k0 key) as [->|Hne]; [tauto|].
  rewrite IH; [reflexivity|tauto].
Qed.

Section PerturbationShape.
Context {value : Type} `{!PyStr value} {W : Type} `{!World value W}.

Lemma pick_loop_world (self : stochastic_ruler value) (items : config value) :
  forall (set_hp : config value) (w : W) c' w',
    pick_loop self items set_hp w = Ok (c', w') ->
    w' = Nat.iter (length items) (fun w0 => snd (randint w0)) w.
Proof.
  induction items as [|[hp v] items IH]; intros set_hp w c' w';
    cbn [pick_loop].
  - intros [= <- <-]. reflexivity.
  - destruct (Neigh_dict self !! key_of hp v); [|discriminate].
    destruct (randint w) as [idx w1] eqn:Hdraw.
    destruct (dict_get (space self) hp) as [vals|]; [|discriminate].
    destruct (Z.of_nat (length vals) =? 0); [discriminate|].
    destruct (py_getitem vals _) as [x|e]; cbn [mbind result_bind];
      [|discriminate].
    intros Hrest. apply IH in Hrest.
    cbn [length]. rewrite Nat.iter_succ_r, Hdraw. exact Hrest.
Qed.

Lemma py_getitem_ok {A : Type} (l : list A) (i : Z) (x : A) :
  0 <= i -> py_getitem l i = Ok x -> l !! Z.to_nat i = Some x.
Proof.
  intros Hi. unfold py_getitem.
  destruct (Z.ltb_spec i 0); [lia|].
  destruct ((i <? 0) || (Z.of_nat (length l) <=? i)); [discriminate|].
  destruct (l !! Z.to_nat i); [|discriminate]. intros [= ->]. reflexivity.
Qed.

Lemma pick_loop_structure (self : stochastic_ruler value)
  (items : config value) :
  forall (set_hp : config value) (w : W) c' w',
    pick_loop self items set_hp w = Ok (c', w') ->
    NoDup (map fst items) ->
    (forall d, In d (map fst items) -> ~ In d (map fst set_hp)) ->
    exists new, c' = set_hp ++ new /\ Forall2 (perturbed self) items new.
Proof.
  induction items as [|[hp v] items IH]; intros set_hp w c' w';
    cbn [pick_loop].
  - intros [= <- <-] _ _. exists []. split; [by rewrite app_nil_r|constructor].
  - destruct (Neigh_dict self !! key_of hp v) as [hp_index|] eqn:Hidx;
      [|discriminate].
    destruct (randint w) as [idx w1].
    destruct (dict_get (space self) hp) as [vals|] eqn:Hvals; [|discriminate].
    destruct (Z.eqb_spec (Z.of_nat (length vals)) 0) as [|Hlen]; [discriminate|].
    destruct (py_getitem vals _) as [x|e] eqn:Hget; cbn [mbind result_bind];
      [|discriminate].
    intros Hrest Hnd Hfresh. cbn [map fst] in Hnd, Hfresh.
    apply NoDup_cons in Hnd as [Hhp Hnd].
    rewrite dict_set_fresh in Hrest by (apply Hfresh; left; reflexivity).
    destruct (IH _ _ _ _ Hrest Hnd) as (new & -> & Hnew).
    { intros d Hd. rewrite map_app, in_app_iff. simpl.
      intros [Hin|[<-|[]]].
      - apply (Hfresh d); [right; exact Hd|exact Hin].
      - apply Hhp. apply list_elem_of_In. exact Hd. }
    exists ((hp, x) :: new). split; [by rewrite <- app_assoc|].
    constructor; [|exact Hnew].
    split; [reflexivity|]. exists hp_index, idx, vals. simpl.
    repeat split; try assumption.
    + intros ->. simpl in Hlen. lia.
    + apply py_getitem_ok; [|exact Hget].
      apply Z.mod_pos_bound. lia.
Qed.

Lemma Forall2_perturbed_names (self : stochastic_ruler value)
  (items new : config value) :
  Forall2 (perturbed self) items new -> map fst new = map fst items.
Proof.
  induction 1 as [|item n items new [Hname _] _ IH]; simpl; congruence.
Qed.

(** X5: the perturbation of a configuration draws [randint] once per
    hyperparameter and touches nothing else in the world, and the result
    has the same hyperparameter names in the same order. *)
Theorem random_pick_shape (self : stochastic_ruler value)
  (c : config value) (w : W) c' w' :
  NoDup (map fst c) ->
  random_pick_from_neighbourhood_structure self c w = Ok (c', w') ->
  map fst c' = map fst c /\
  w' = Nat.iter (length c) (fun w0 => snd (randint w0)) w.
Proof.
  unfold random_pick_from_neighbourhood_structure. intros Hnd Hrun. split.
  - destruct (pick_loop_structure _ _ _ _ _ _ Hrun Hnd) as (new & -> & Hnew);
      [simpl; tauto|].
    simpl. eapply Forall2_perturbed_names, Hnew.
  - eapply pick_loop_world, Hrun.
Qed.

Lemma pick_loop_app (self : stochastic_ruler value) (a b : config value) :
  forall (set_hp : config value) (w : W),
    pick_loop self (a ++ b) set_hp w
    = match pick_loop self a set_hp w with
      | Ok (set_hp', w') => pick_loop self b set_hp' w'
      | Raise e => Raise e
      end.
Proof.
  induction a as [|[hp v] a IH]; intros set_hp w; [reflexivity|].
  cbn [app pick_loop].
  destruct (Neigh_dict self !! key_of hp v); [|reflexivity].
  destruct (randint w) as [idx w1].
  destruct (dict_get (space self) hp) as [vals|]; [|reflexivity].
  destruct (Z.of_nat (length vals) =? 0); [reflexivity|].
  destruct (py_getitem vals _) as [x|e]; cbn [mbind result_bind];
    [apply IH|reflexivity].
Qed.

(** X6: a configuration that holds, after items that are in the space, a
    (name, value) pair whose key no pair of the space produces makes the
    perturbation raise [KeyError] with that key. *)
Theorem random_pick_foreign_item (sp : list (string * list value))
  (mt : string) (me : Z) (self : stochastic_ruler value)
  (before after : config value) (hp : string) (v : value) (w : W) :
  init sp mt me = Ok self ->
  in_space sp before ->
  ~ In (key_of hp v) (map fst (space_entries sp)) ->
  random_pick_from_neighbourhood_structure self
    (before ++ (hp, v) :: after) w
  = Raise (KeyError (key_of hp v)).
Proof.
  intros [= <-] Hbefore Hforeign.
  unfold random_pick_from_neighbourhood_structure. rewrite pick_loop_app.
  destruct (pick_loop_in_space
              (Build_stochastic_ruler sp mt me (help_neigh_struct sp)) before
              (fun d vals v0 => help_neigh_struct_indexed sp d vals v0)
              Hbefore [] w (List.Forall_nil _)) as (c1 & w1 & -> & _).
  cbn [pick_loop Neigh_dict].
  destruct (help_neigh_struct sp !! key_of hp v) as [i|] eqn:Hlook;
    [|reflexivity].
  exfalso. apply Hforeign. rewrite help_neigh_struct_lookup in Hlook.
  destruct (last_assigned_origin _ _ _ _ Hlook) as [|Hin]; [discriminate|].
  apply (in_map fst) in Hin. exact Hin.
Qed.

Lemma allowed_unique_dimension (sp : list (string * list value))
  (d : string) (v : value) (vals : list value) :
  allowed sp d v -> dict_get sp d = Some vals -> In v vals.
Proof. intros (vals' & Hget & Hv) Hvals. congruence. Qed.

(** X7: on a space whose dimensions all have exactly one value, the
    perturbation of a configuration of the space returns that same
    configuration, whatever is drawn. *)
Theorem random_pick_single_valued (sp : list (string * list value))
  (mt : string) (me : Z) (self : stochastic_ruler value)
  (c : config value) (w : W) :
  init sp mt me = Ok self ->
  Forall (fun dim => length (snd dim) = 1%nat) sp ->
  in_space sp c ->
  NoDup (map fst c) ->
  exists w', random_pick_from_neighbourhood_structure self c w = Ok (c, w').
Proof.
  intros [= <-] Hone Hc Hnd.
  destruct (pick_loop_in_space
              (Build_stochastic_ruler sp mt me (help_neigh_struct sp)) c
              (fun d vals v0 => help_neigh_struct_indexed sp d vals v0)
              Hc [] w (List.Forall_nil _)) as (c' & w' & Hrun & _).
  exists w'. unfold random_pick_from_neighbourhood_structure. rewrite Hrun.
  destruct (pick_loop_structure _ _ _ _ _ _ Hrun Hnd) as (new & -> & Hnew);
    [simpl; tauto|].
  simpl. do 2 f_equal. symmetry.
  unfold in_space in Hc. clear Hrun Hnd.
  induction Hnew as [|[hp v] [hp' x] items new [Hname Hstep] _ IH];
    [reflexivity|].
  apply Forall_cons in Hc as [Hv Hc]. simpl in Hname, Hstep, Hv. subst hp'.
  destruct Hstep as (hp_index & idx & vals & _ & Hvals & _ & Hx).
  simpl in Hvals. f_equal; [|apply IH, Hc].
  pose proof (allowed_unique_dimension _ _ _ _ Hv Hvals) as Hin.
  assert (Hlen : length vals = 1%nat).
  { rewrite Forall_forall in Hone.
    apply (Hone (hp, vals)), list_elem_of_In, dict_get_in, Hvals. }
  destruct vals as [|v0 [|? ?]]; try discriminate.
  simpl in Hin, Hx. rewrite Z.mod_1_r in Hx. simpl in Hx.
  destruct Hin as [->|[]]. congruence.
Qed.

(** X8: when no two (dimension, value) pairs of the space share a key, every
    value of the perturbation of a configuration of the space sits at the
    position of the old value moved by -1, 0 or +1 modulo the length of the
    dimension. *)
Theorem random_pick_cyclic_neighbour (sp : list (string * list value))
  (mt : string) (me : Z) (self : stochastic_ruler value)
  (c : config value) (w : W) c' w' :
  init sp mt me = Ok self ->
  NoDup (map fst (space_entries sp)) ->
  in_space sp c ->
  NoDup (map fst c) ->
  random_pick_from_neighbourhood_structure self c w = Ok (c', w') ->
  Forall2 (cyclic_neighbour sp) c c'.
Proof.
  intros [= <-] Hkeys Hc Hnd Hrun.
  unfold random_pick_from_neighbourhood_structure in Hrun.
  destruct (pick_loop_structure _ _ _ _ _ _ Hrun Hnd) as (new & -> & Hnew);
    [simpl; tauto|].
  simpl. unfold in_space in Hc. clear Hrun Hnd.
  induction Hnew as [|[hp v] [hp' x] items new [Hname Hstep] _ IH];
    [constructor|].
  apply Forall_cons in Hc as [Hv Hc]. constructor; [|apply IH, Hc].
  simpl in Hname, Hstep, Hv. subst hp'.
  destruct Hstep as (hp_index & idx & vals & Hidx & Hvals & Hne & Hx).
  simpl in Hvals, Hidx.
  pose proof (allowed_unique_dimension _ _ _ _ Hv Hvals) as Hin.
  apply list_elem_of_In, list_elem_of_lookup_1 in Hin as [i Hi].
  rewrite (help_neigh_struct_exact sp hp vals i v Hkeys
             (dict_get_in _ _ _ Hvals) Hi) in Hidx.
  injection Hidx as <-.
  split; [reflexivity|]. exists vals, i, idx. simpl.
  repeat split; [exact Hvals|exact Hi|].
  rewrite <- Hx. do 2 f_equal.
  rewrite <- (Z_mod_plus_full (Z.of_nat i + step_Z idx) 1 (Z.of_nat (length vals))).
  f_equal. lia.
Qed.

End PerturbationShape.

(** ** The outcome of a pass *)

Section PassOutcome.
Context {value : Type} `{!PyStr value} {W : Type} `{!World value W}.

(** A pass from a counter k >= 1 ends in exactly one of three ways. *)
Lemma while_body_outcome (self : stochastic_ruler value) (s : locals value)
  (w : W) s' w' p :
  1 <= k s ->
  while_body self s w = Ok (s', w', p) ->
  pass_k p = k s /\ pass_x p = x_k s /\
  (exists w1, random_pick_from_neighbourhood_structure self (x_k s) w
              = Ok (pass_zk p, w1)) /\
  (exists m pre h r,
      Mf (k s) = Ok m /\
      pass_draws p = pre ++ [(h, r)] /\ Forall fails pre /\
      Z.of_nat (length (pass_draws p)) <= m /\
      ((Qltb r h = true /\ Qltb h r = false /\
        s' = record_best (incr_k (set_draw s h r)) h (x_k s))
       \/
       (Qltb r h = false /\ Qltb h r = true /\
        s' = record_best (incr_k (set_x_k (set_draw s h r) (pass_zk p))) h
               (pass_zk p))
       \/
       (Qltb r h = false /\ Qltb h r = false /\ s' = set_draw s h r))).
Proof.
  intros Hk Hrun.
  destruct (while_body_spec _ _ _ _ _ _ Hrun)
    as (zk & w1 & iter & s1 & h & r & Hpick & Hiter & Hloop & Hp & Hh & Hr & ->).
  rewrite Hp. cbn [pass_k pass_x pass_zk pass_draws]. repeat split.
  { exists w1. exact Hpick. }
  destruct (Mf_defined (k s) Hk) as (m & Hm & Hm1).
  rewrite Hm in Hiter. injection Hiter as <-.
  exists m.
  destruct (for_loop_spec _ _ _ _ _ _ _ _ Hloop)
    as [(pre & h' & r' & Hdraws & Hpre & Hpass & Hlen & ->)|(Hlen & Hall & ->)].
  - destruct (record_best_fields (incr_k (set_draw s h' r')) h' (x_k s))
      as (_ & _ & Hh' & Hr' & _).
    rewrite Hh' in Hh. rewrite Hr' in Hr. simpl in Hh, Hr.
    injection Hh as <-. injection Hr as <-.
    apply Qltb_true in Hpass.
    exists pre, h', r'. rewrite (Qltb_asym _ _ Hpass).
    repeat split; try assumption; [lia|]. left. repeat split. exact Hpass.
  - destruct (last (pass_draws p)) as [[h' r']|] eqn:Hlast.
    + simpl in Hh, Hr. injection Hh as <-. injection Hr as <-.
      apply last_Some in Hlast as [pre Hdraws].
      exists pre, h', r'. rewrite Hdraws in Hall.
      apply Forall_app in Hall as [Hpre Hfail].
      apply Forall_cons in Hfail as [Hfail _].
      apply Qltb_false in Hfail. simpl in Hfail.
      repeat split; try assumption; [lia|].
      destruct (Qltb h' r') eqn:Hforced; [right; left|right; right];
        repeat split; assumption.
    + apply last_None in Hlast. rewrite Hlast in Hlen. simpl in Hlen. lia.
Qed.

Lemma while_loop_invariant (self : stochastic_ruler value)
  (I : locals value -> list (pass value) -> Prop) :
  (forall s w log s' w' p,
      I s log -> k s < maxevals self + 1 ->
      while_body self s w = Ok (s', w', p) -> I s' (log ++ [p])) ->
  forall fuel s w log m o w' log',
    I s log ->
    while_loop self fuel s w log = Some (Ok (m, o, w', log')) ->
    exists s_end,
      I s_end log' /\ m = minh_of_z s_end /\ o = opt_x s_end /\
      maxevals self + 1 <= k s_end.
Proof.
  intros Hstep. induction fuel as [|fuel IH]; intros s w log m o w' log' HI;
    cbn [while_loop]; destruct (Z.ltb_spec (k s) (maxevals self + 1)).
  - discriminate.
  - intros [= <- <- <- <-]. exists s. repeat split; assumption.
  - destruct (while_body self s w) as [[[s1 w1] p1]|e] eqn:Hbody;
      [|discriminate].
    apply IH. eapply Hstep; eassumption.
  - intros [= <- <- <- <-]. exists s. repeat split; assumption.
Qed.

Lemma SR_Algo_returns (self : stochastic_ruler value) (fuel : nat) (w : W)
  m o w' log :
  SR_Algo self fuel w = Some (Ok (m, o, w', log)) ->
  exists c0,
    initial_choice_loop (space self) [] = Ok c0 /\
    while_loop self fuel (Locals 1%Q EmptyList 1 c0 None None) w []
    = Some (Ok (m, o, w', log)).
Proof.
  unfold SR_Algo.
  destruct (initial_choice_loop (space self) []) as [c0|e]; [|discriminate].
  intros Hrun. exists c0. split; [reflexivity|exact Hrun].
Qed.

End PassOutcome.

(** ** The history of a run *)

Section RunHistory.
Context {value : Type} `{!PyStr value} {W : Type} `{!World value W}.

Lemma pass_flags (p : pass value) (pre : list (Q * Q)) (h r : Q) :
  pass_draws p = pre ++ [(h, r)] ->
  acceptedb p = Qltb r h /\ forcedb p = Qltb h r /\
  deciding_sample p = if Qltb r h || Qltb h r then Some h else None.
Proof.
  intros Hdraws. unfold acceptedb, forcedb, deciding_sample.
  rewrite Hdraws, last_snoc. repeat split.
Qed.

(** What a pass from a counter k >= 1 does to the locals, in terms of the
    pass observed. *)
Lemma while_body_effect (self : stochastic_ruler value) (s : locals value)
  (w : W) s' w' p :
  1 <= k s ->
  while_body self s w = Ok (s', w', p) ->
  pass_k p = k s /\ pass_x p = x_k s /\
  k s' = next_k p /\ x_k s' = next_x p /\
  minh_of_z s' = match deciding_sample p with
                 | Some h => if Qltb h (minh_of_z s) then h else minh_of_z s
                 | None => minh_of_z s
                 end /\
  opt_x s' = match deciding_sample p with
             | Some h => if Qltb h (minh_of_z s) then Config (next_x p)
                         else opt_x s
             | None => opt_x s
             end.
Proof.
  intros Hk Hrun.
  destruct (while_body_outcome _ _ _ _ _ _ Hk Hrun)
    as (Hpk & Hpx & _ & m & pre & h & r & _ & Hdraws & _ & _ & Hcase).
  destruct (pass_flags _ _ _ _ Hdraws) as (Ha & Hf & Hd).
  unfold next_k, next_x. rewrite Ha, Hf, Hd, Hpk, Hpx.
  destruct Hcase as [(-> & -> & ->)|[(-> & -> & ->)|(-> & -> & ->)]];
    simpl; unfold record_best; simpl;
    try (destruct (Qltb h (minh_of_z s)); simpl); repeat split.
Qed.

Lemma ends_at_snoc (log : list (pass value)) (p : pass value) :
  forall k0 x0,
    ends_at k0 x0 log (pass_k p) (pass_x p) ->
    ends_at k0 x0 (log ++ [p]) (next_k p) (next_x p).
Proof.
  induction log as [|q log IH]; intros k0 x0; simpl.
  - intros [-> ->]. repeat split.
  - intros (-> & -> & Hrest). repeat split. apply IH, Hrest.
Qed.

Lemma ends_at_follows (log : list (pass value)) :
  forall k0 x0 kf xf, ends_at k0 x0 log kf xf -> follows k0 x0 log.
Proof.
  induction log as [|q log IH]; intros k0 x0 kf xf; simpl; [tauto|].
  intros (-> & -> & Hrest). repeat split. eapply IH, Hrest.
Qed.

Lemma decided_samples_snoc (log : list (pass value)) (p : pass value) :
  decided_samples (log ++ [p])
  = decided_samples log ++ match deciding_sample p with
                           | Some h => [h]
                           | None => []
                           end.
Proof.
  unfold decided_samples. rewrite omap_app. simpl.
  destruct (deciding_sample p); reflexivity.
Qed.

Lemma next_k_cases (p : pass value) :
  next_k p = match deciding_sample p with
             | Some _ => pass_k p + 1
             | None => pass_k p
             end.
Proof.
  unfold next_k, acceptedb, forcedb, deciding_sample.
  destruct (last (pass_draws p)) as [[h r]|]; [|reflexivity].
  destruct (Qltb r h || Qltb h r); reflexivity.
Qed.

Lemma history_invariant_step (self : stochastic_ruler value)
  (c0 : config value) (s : locals value) (w : W) log s' w' p :
  history_invariant (maxevals self) c0 s log ->
  k s < maxevals self + 1 ->
  while_body self s w = Ok (s', w', p) ->
  history_invariant (maxevals self) c0 s' (log ++ [p]).
Proof.
  intros ([Hk1 Hk2] & Hends & Hmin & Hcount & Hle & Hopt) Hcond Hrun.
  destruct (while_body_effect _ _ _ _ _ _ Hk1 Hrun)
    as (Hpk & Hpx & Hk' & Hx' & Hm' & Ho').
  pose proof (next_k_cases p) as Hnk.
  unfold history_invariant.
  rewrite Hk', Hx', Hm', Ho', decided_samples_snoc.
  unfold running_min in *. rewrite fold_left_app, <- Hmin, length_app.
  split; [|split; [|split; [|split; [|split]]]].
  - rewrite Hnk. destruct (deciding_sample p); lia.
  - apply ends_at_snoc. rewrite Hpk, Hpx. exact Hends.
  - destruct (deciding_sample p); reflexivity.
  - rewrite Hnk. destruct (deciding_sample p); simpl; lia.
  - destruct (deciding_sample p) as [h|]; [|exact Hle].
    destruct (Qltb h (minh_of_z s)) eqn:Hcmp; [|exact Hle].
    apply Qltb_true in Hcmp. apply Qlt_le_weak.
    eapply Qlt_le_trans; eassumption.
  - assert (Hkeep :
      match opt_x s with
      | EmptyList => minh_of_z s = 1%Q
      | Config c =>
          Qlt (minh_of_z s) 1 /\
          exists p0, In p0 (log ++ [p]) /\
                     deciding_sample p0 = Some (minh_of_z s) /\ c = next_x p0
      end).
    { destruct (opt_x s) as [|c]; [exact Hopt|].
      destruct Hopt as (Hlt & p0 & Hin & Hdec & Hc).
      split; [exact Hlt|]. exists p0. split; [|split; assumption].
      apply in_or_app. left. exact Hin. }
    destruct (deciding_sample p) as [h|] eqn:Hdec; [|exact Hkeep].
    destruct (Qltb h (minh_of_z s)) eqn:Hcmp; [|exact Hkeep].
    apply Qltb_true in Hcmp. split; [eapply Qlt_le_trans; eassumption|].
    exists p. split; [apply in_or_app; right; left; reflexivity|].
    split; [exact Hdec|reflexivity].
Qed.

Lemma SR_Algo_history (self : stochastic_ruler value) (fuel : nat) (w : W)
  m o w' log :
  SR_Algo self fuel w = Some (Ok (m, o, w', log)) ->
  exists c0 s_end,
    initial_choice_loop (space self) [] = Ok c0 /\
    history_invariant (maxevals self) c0 s_end log /\
    m = minh_of_z s_end /\ o = opt_x s_end /\
    maxevals self + 1 <= k s_end.
Proof.
  intros Hrun. destruct (SR_Algo_returns _ _ _ _ _ _ _ Hrun) as (c0 & Hc0 & Hloop).
  assert (Hinit : history_invariant (maxevals self) c0
                    (Locals 1%Q EmptyList 1 c0 None None) []).
  { unfold history_invariant. simpl. repeat split; try lia. apply Qle_refl. }
  destruct (while_loop_invariant self (history_invariant (maxevals self) c0)
              (fun s w0 log0 s' w0' p =>
                 history_invariant_step self c0 s w0 log0 s' w0' p)
              _ _ _ _ _ _ _ _ Hinit Hloop)
    as (s_end & Hinv & Hm & Ho & Hexit).
  exists c0, s_end. auto.
Qed.

(** X9: the cost returned by a run is exactly the running minimum, started
    at 1, of the deciding samples of its passes. *)
Theorem min_score_is_running_min (self : stochastic_ruler value)
  (fuel : nat) (w : W) m o w' log :
  SR_Algo self fuel w = Some (Ok (m, o, w', log)) ->
  m = running_min (decided_samples log) 1%Q.
Proof.
  intros Hrun.
  destruct (SR_Algo_history _ _ _ _ _ _ _ Hrun)
    as (c0 & s_end & _ & (_ & _ & Hmin & _) & -> & _).
  exact Hmin.
Qed.

(** X10: a run returns either the empty list with cost 1, or a cost below
    1 that is the deciding sample of one of its passes together with the
    point that was current after that pass: the candidate of a forced
    pass, the unchanged current point of an accepted one. *)
Theorem opt_x_provenance (self : stochastic_ruler value)
  (fuel : nat) (w : W) m o w' log :
  SR_Algo self fuel w = Some (Ok (m, o, w', log)) ->
  match o with
  | EmptyList => m = 1%Q
  | Config c =>
      Qlt m 1%Q /\
      exists p, In p log /\ deciding_sample p = Some m /\ c = next_x p
  end.
Proof.
  intros Hrun.
  destruct (SR_Algo_history _ _ _ _ _ _ _ Hrun)
    as (c0 & s_end & _ & (_ & _ & _ & _ & _ & Hopt) & -> & -> & _).
  exact Hopt.
Qed.

(** X11: a run that returns has made exactly [maxevals] accepted or forced
    passes (none when [maxevals] is negative); passes that end in a tie
    are not counted. *)
Theorem decided_passes_count (self : stochastic_ruler value)
  (fuel : nat) (w : W) m o w' log :
  SR_Algo self fuel w = Some (Ok (m, o, w', log)) ->
  length (decided_samples log) = Z.to_nat (maxevals self).
Proof.
  intros Hrun.
  destruct (SR_Algo_history _ _ _ _ _ _ _ Hrun)
    as (c0 & s_end & _ & (Hk & _ & _ & Hcount & _) & _ & _ & Hexit).
  lia.
Qed.

(** X12: the passes of a run follow one another: the first starts at
    counter 1 on the first value of every dimension; the next starts at the
    counter advanced by one exactly when the pass was accepted or forced,
    and on the candidate exactly when the pass was forced. *)
Theorem passes_follow (self : stochastic_ruler value)
  (fuel : nat) (w : W) m o w' log :
  SR_Algo self fuel w = Some (Ok (m, o, w', log)) ->
  exists c0,
    initial_choice_loop (space self) [] = Ok c0 /\ follows 1 c0 log.
Proof.
  intros Hrun.
  destruct (SR_Algo_history _ _ _ _ _ _ _ Hrun)
    as (c0 & s_end & Hc0 & (_ & Hends & _) & _).
  exists c0. split; [exact Hc0|]. eapply ends_at_follows, Hends.
Qed.

End RunHistory.

(** ** What every pass and every run keep *)

Section RunInvariants.
Context {value : Type} `{!PyStr value} {W : Type} `{!World value W}.

Lemma passes_well_formed_loop (self : stochastic_ruler value) (fuel : nat)
  (w : W) m o w' log :
  SR_Algo self fuel w = Some (Ok (m, o, w', log)) ->
  Forall (well_formed_pass (maxevals self)) log.
Proof.
  intros Hrun. destruct (SR_Algo_returns _ _ _ _ _ _ _ Hrun) as (c0 & _ & Hloop).
  set (I := fun (s : locals value) (l : list (pass value)) =>
              1 <= k s /\ Forall (well_formed_pass (maxevals self)) l).
  assert (Hstep : forall s w0 l s' w0' p,
             I s l -> k s < maxevals self + 1 ->
             while_body self s w0 = Ok (s', w0', p) -> I s' (l ++ [p])).
  { intros s w0 l s' w0' p [Hk Hl] Hcond Hbody.
    destruct (while_body_effect _ _ _ _ _ _ Hk Hbody) as (Hpk & _ & Hk' & _).
    destruct (while_body_outcome _ _ _ _ _ _ Hk Hbody)
      as (_ & _ & _ & m0 & pre & h & r & Hm & Hdraws & Hpre & Hlen & _).
    split.
    - rewrite Hk', next_k_cases. destruct (deciding_sample p); lia.
    - apply Forall_app. split; [exact Hl|]. constructor; [|constructor].
      split; [lia|]. exists m0, pre, (h, r). rewrite Hpk. auto. }
  assert (Hinit : I (Locals 1%Q EmptyList 1 c0 None None) []).
  { split; [simpl; lia|constructor]. }
  destruct (while_loop_invariant self I Hstep _ _ _ _ _ _ _ _ Hinit Hloop)
    as (s_end & [_ Hlog] & _).
  exact Hlog.
Qed.

(** X13: every pass of a run starts at a counter between 1 and [maxevals]
    and draws at least one and at most [Mf] of that counter (sample, ruler)
    pairs, of which all but the last fail the ruler test. *)
Theorem passes_well_formed (self : stochastic_ruler value) (fuel : nat)
  (w : W) m o w' log :
  SR_Algo self fuel w = Some (Ok (m, o, w', log)) ->
  Forall (well_formed_pass (maxevals self)) log.
Proof. apply passes_well_formed_loop. Qed.

Lemma dict_get_of_in {V : Type} (d : list (string * V)) (key : string) (v : V) :
  NoDup (map fst d) -> In (key, v) d -> dict_get d key = Some v.
Proof.
  induction d as [|[k0 v0] d IH]; simpl; [tauto|].
  intros Hnd Hin. apply NoDup_cons in Hnd as [Hfresh Hnd].
  destruct (String.eqb_spec k0 key) as [->|Hne].
  - destruct Hin as [[= ->]|Hin]; [reflexivity|].
    exfalso. apply Hfresh. apply list_elem_of_In.
    apply (in_map fst) in Hin. exact Hin.
  - destruct Hin as [[= ? ?]|Hin]; [congruence|]. apply IH; assumption.
Qed.

Lemma py_getitem_first {A : Type} (l : list A) (x : A) :
  py_getitem l 0 = Ok x -> head l = Some x.
Proof.
  intros Hget. apply py_getitem_ok in Hget; [|lia].
  destruct l; simpl in *; congruence.
Qed.

Lemma initial_choice_loop_in_space (sp : list (string * list value))
  (rest : list (string * list value)) :
  (forall i vals, In (i, vals) rest -> dict_get sp i = Some vals) ->
  forall acc c0,
    in_space sp acc ->
    initial_choice_loop rest acc = Ok c0 -> in_space sp c0.
Proof.
  induction rest as [|[i vals] rest IH]; intros Hrest acc c0 Hacc; simpl.
  - intros [= <-]. exact Hacc.
  - destruct (py_getitem vals 0) as [x|e] eqn:Hget; cbn [mbind result_bind];
      [|discriminate].
    apply IH.
    + intros i' vals' Hin. apply Hrest. right. exact Hin.
    + apply dict_set_Forall; [exact Hacc|].
      exists vals. split; [apply Hrest; left; reflexivity|].
      apply py_getitem_first in Hget. destruct vals; simpl in *; [discriminate|].
      injection Hget as ->. left. reflexivity.
Qed.

(** X14: on a searcher built by the constructor from a space with distinct
    dimension names, the current point and the candidate of every pass of a
    run, and the configuration the run returns, are configurations of the
    space. *)
Theorem run_stays_in_space (sp : list (string * list value)) (mt : string)
  (me : Z) (self : stochastic_ruler value) (fuel : nat) (w : W)
  m o w' log :
  init sp mt me = Ok self ->
  NoDup (map fst sp) ->
  SR_Algo self fuel w = Some (Ok (m, o, w', log)) ->
  Forall (pass_in_space sp) log /\
  forall c, o = Config c -> in_space sp c.
Proof.
  intros Hinit Hnd Hrun.
  destruct (SR_Algo_returns _ _ _ _ _ _ _ Hrun) as (c0 & Hc0 & Hloop).
  injection Hinit as <-. cbn [space] in Hc0.
  set (self := Build_stochastic_ruler sp mt me (help_neigh_struct sp)) in *.
  set (I := fun (s : locals value) (l : list (pass value)) =>
              1 <= k s /\ in_space sp (x_k s) /\
              Forall (pass_in_space sp) l /\
              forall c, opt_x s = Config c -> in_space sp c).
  assert (Hstep : forall s w0 l s' w0' p,
             I s l -> k s < maxevals self + 1 ->
             while_body self s w0 = Ok (s', w0', p) -> I s' (l ++ [p])).
  { intros s w0 l s' w0' p (Hk & Hx & Hl & Ho) _ Hbody.
    destruct (while_body_effect _ _ _ _ _ _ Hk Hbody)
      as (Hpk & Hpx & Hk' & Hx' & _ & Ho').
    destruct (while_body_outcome _ _ _ _ _ _ Hk Hbody)
      as (_ & _ & [w1 Hpick] & _).
    destruct (pick_loop_in_space self (x_k s)
                (fun d vals v0 => help_neigh_struct_indexed sp d vals v0)
                Hx [] w0 (List.Forall_nil _)) as (c' & w1' & Hpick' & Hzk & _).
    unfold random_pick_from_neighbourhood_structure in Hpick.
    rewrite Hpick' in Hpick. injection Hpick as -> ->.
    assert (Hnext : in_space sp (next_x p)).
    { unfold next_x. destruct (forcedb p); [exact Hzk|]. rewrite Hpx. exact Hx. }
    repeat split.
    - rewrite Hk', next_k_cases. destruct (deciding_sample p); lia.
    - rewrite Hx'. exact Hnext.
    - apply Forall_app. split; [exact Hl|]. constructor; [|constructor].
      split; [rewrite Hpx; exact Hx|exact Hzk].
    - intros c. rewrite Ho'. destruct (deciding_sample p) as [h|]; [|apply Ho].
      destruct (Qltb h (minh_of_z s)); [|apply Ho].
      intros [= <-]. exact Hnext. }
  assert (Hstart : I (Locals 1%Q EmptyList 1 c0 None None) []).
  { repeat split; [simpl; lia| |constructor|discriminate].
    simpl. eapply (initial_choice_loop_in_space sp sp); [|constructor|exact Hc0].
    intros i vals. apply dict_get_of_in, Hnd. }
  destruct (while_loop_invariant self I Hstep _ _ _ _ _ _ _ _ Hstart Hloop)
    as (s_end & (_ & _ & Hlog & Hopt) & _ & -> & _).
  split; assumption.
Qed.

(** X15: when some dimension of the space has no value, the run raises
    [IndexError] while it builds the starting point, whatever [maxevals]
    and the world are. *)
Theorem SR_Algo_empty_dimension (self : stochastic_ruler value) (fuel : nat)
  (w : W) :
  Exists (fun dim => snd dim = []) (space self) ->
  SR_Algo self fuel w = Some (Raise IndexError).
Proof.
  intros Hempty. unfold SR_Algo.
  assert (Hraise : forall acc,
             initial_choice_loop (space self) acc = Raise IndexError).
  { induction Hempty as [[i vals] rest Hhere|[i vals] rest _ IH];
      intros acc; simpl in *.
    - subst vals. reflexivity.
    - destruct (py_getitem vals 0) as [x|e] eqn:Hget; cbn [mbind result_bind].
      + apply IH.
      + apply py_getitem_raises in Hget as ->. reflexivity. }
  rewrite Hraise. reflexivity.
Qed.

Lemma initial_choice_loop_shape (rest : list (string * list value)) :
  forall acc c0,
    NoDup (map fst rest) ->
    (forall d, In d (map fst rest) -> ~ In d (map fst acc)) ->
    initial_choice_loop rest acc = Ok c0 ->
    exists new, c0 = acc ++ new /\ Forall2 first_value rest new.
Proof.
  induction rest as [|[i vals] rest IH]; intros acc c0 Hnd Hfresh; simpl.
  - intros [= <-]. exists []. split; [by rewrite app_nil_r|constructor].
  - destruct (py_getitem vals 0) as [x|e] eqn:Hget; cbn [mbind result_bind];
      [|discriminate].
    simpl in Hnd, Hfresh. apply NoDup_cons in Hnd as [Hi Hnd].
    rewrite dict_set_fresh by (apply Hfresh; left; reflexivity).
    intros Hrest.
    assert (Hfresh' : forall d, In d (map fst rest) ->
                                ~ In d (map fst (acc ++ [(i, x)]))).
    { intros d Hd. rewrite map_app, in_app_iff. simpl.
      intros [Hin|[<-|[]]].
      - apply (Hfresh d); [right; exact Hd|exact Hin].
      - apply Hi. apply list_elem_of_In. exact Hd. }
    destruct (IH _ _ Hnd Hfresh' Hrest) as (new & -> & Hnew).
    exists ((i, x) :: new). split; [by rewrite <- app_assoc|].
    constructor; [|exact Hnew]. split; [reflexivity|].
    apply py_getitem_first, Hget.
Qed.

(** X16: on a space with distinct dimension names and no empty dimension,
    the starting point of the run holds, for every dimension in the order
    of the space, its first allowed value. *)
Theorem initial_choice_first_values (sp : list (string * list value)) :
  NoDup (map fst sp) ->
  nonempty_dimensions sp ->
  exists c0,
    initial_choice_loop sp [] = Ok c0 /\ Forall2 first_value sp c0.
Proof.
  intros Hnd Hne.
  destruct (initial_choice_loop_total sp Hne []) as [c0 Hc0].
  exists c0. split; [exact Hc0|].
  destruct (initial_choice_loop_shape sp [] c0 Hnd) as (new & -> & Hnew);
    [simpl; tauto|exact Hc0|exact Hnew].
Qed.

End RunInvariants.

(** ** The model constructed for a configuration *)

Section ModelFuncProperties.
Context {value : Type} `{!PyIndex value}.

(** The six tests of [ModelFunc] are on distinct tags: only the first that
    holds assigns [MODEL]. *)
Lemma ModelFunc_dispatch (self : stochastic_ruler value)
  (neigh : config value) :
  ModelFunc self neigh
  = if String.eqb (model_type self) "MLP" then build_MLP self neigh
    else if String.eqb (model_type self) "SVM"
         then build3 neigh "kernel" "gamma" "C" (fun k g c => SVC k g c 1000)
    else if String.eqb (model_type self) "RFC"
         then build3 neigh "max_depth" "criterion" "n_estimators"
                RandomForestClassifier
    else if String.eqb (model_type self) "DTC"
         then inr (DecisionTreeClassifier 0)
    else if String.eqb (model_type self) "GBC"
         then build3 neigh "n_estimators" "learning_rate" "max_depth"
                GradientBoostingClassifier
    else if String.eqb (model_type self) "KNN"
         then build3 neigh "n_neighbors" "weights" "metric"
                KNeighborsClassifier
    else inl (Core (UnboundLocalError "MODEL")).
Proof.
  unfold ModelFunc, model_if. generalize (build_MLP self neigh).
  generalize (model_type self). intros mt mlp.
  destruct (String.eqb_spec mt "MLP") as [->|_];
    [simpl; destruct mlp; reflexivity|].
  destruct (String.eqb_spec mt "SVM") as [->|_];
    [simpl; destruct (build3 _ _ _ _ _); reflexivity|].
  destruct (String.eqb_spec mt "RFC") as [->|_];
    [simpl; destruct (build3 _ _ _ _ _); reflexivity|].
  destruct (String.eqb_spec mt "DTC") as [->|_]; [reflexivity|].
  destruct (String.eqb_spec mt "GBC") as [->|_];
    [simpl; destruct (build3 _ _ _ _ _); reflexivity|].
  destruct (String.eqb_spec mt "KNN") as [->|_];
    [simpl; destruct (build3 _ _ _ _ _); reflexivity|].
  reflexivity.
Qed.

Lemma neigh_get_error (neigh : config value) (key : string) (e : py_error) :
  neigh_get neigh key = inl e ->
  e = Core (KeyError key) /\ dict_get neigh key = None.
Proof.
  unfold neigh_get. destruct (dict_get neigh key); [discriminate|].
  intros [= <-]. split; reflexivity.
Qed.

Lemma build3_error (neigh : config value) (k1 k2 k3 : string)
  (make : value -> value -> value -> model value) (e : py_error) :
  build3 neigh k1 k2 k3 make = inl e ->
  exists key, In key [k1; k2; k3] /\ e = Core (KeyError key) /\
              dict_get neigh key = None.
Proof.
  unfold build3.
  destruct (neigh_get neigh k1) as [e1|v1] eqn:H1.
  { intros [= <-]. exists k1. split; [simpl; tauto|]. apply neigh_get_error, H1. }
  destruct (neigh_get neigh k2) as [e2|v2] eqn:H2.
  { intros [= <-]. exists k2. split; [simpl; tauto|]. apply neigh_get_error, H2. }
  destruct (neigh_get neigh k3) as [e3|v3] eqn:H3; [|discriminate].
  intros [= <-]. exists k3. split; [simpl; tauto|]. apply neigh_get_error, H3.
Qed.

Lemma build3_ok (neigh : config value) (k1 k2 k3 : string)
  (make : value -> value -> value -> model value) :
  (exists m, build3 neigh k1 k2 k3 make = inr m) <->
  forall key, In key [k1; k2; k3] -> is_Some (dict_get neigh key).
Proof.
  unfold build3, neigh_get. split.
  - intros [m Hm] key Hkey.
    destruct (dict_get neigh k1) eqn:H1; [|discriminate].
    destruct (dict_get neigh k2) eqn:H2; [|discriminate].
    destruct (dict_get neigh k3) eqn:H3; [|discriminate].
    simpl in Hkey. destruct Hkey as [<-|[<-|[<-|[]]]]; eexists; eassumption.
  - intros Hall.
    destruct (Hall k1 ltac:(simpl; tauto)) as [v1 ->].
    destruct (Hall k2 ltac:(simpl; tauto)) as [v2 ->].
    destruct (Hall k3 ltac:(simpl; tauto)) as [v3 ->].
    eexists; reflexivity.
Qed.

Lemma build3_agree (n1 n2 : config value) (k1 k2 k3 : string)
  (make : value -> value -> value -> model value) :
  (forall key, In key [k1; k2; k3] -> dict_get n1 key = dict_get n2 key) ->
  build3 n1 k1 k2 k3 make = build3 n2 k1 k2 k3 make.
Proof.
  intros Hagree. unfold build3, neigh_get.
  rewrite (Hagree k1), (Hagree k2), (Hagree k3) by (simpl; tauto).
  reflexivity.
Qed.

Lemma hidden_layers_loop_error (neigh : config value) (n : nat) :
  forall i acc e,
    hidden_layers_loop neigh i n acc = inl e -> exists key, e = Core (KeyError key).
Proof.
  induction n as [|n IH]; intros i acc e; simpl; [discriminate|].
  destruct (neigh_get neigh (hidden_layer_key i)) as [e1|v] eqn:Hget.
  - intros [= <-]. destruct (neigh_get_error _ _ _ Hget) as [-> _].
    eexists; reflexivity.
  - apply IH.
Qed.

Lemma build_MLP_error (self : stochastic_ruler value) (neigh : config value)
  (e : py_error) :
  build_MLP self neigh = inl e ->
  e = TypeError \/ e = Core IndexError \/ exists key, e = Core (KeyError key).
Proof.
  unfold build_MLP.
  destruct (dict_get (space self) "num_hidden_layers") as [vals|];
    [|intros [= <-]; right; right; eexists; reflexivity].
  destruct (py_getitem vals 0) as [N|e0] eqn:Hget.
  2:{ intros [= <-]. apply py_getitem_raises in Hget as ->. auto. }
  destruct (as_index N) as [n|]; [|intros [= <-]; auto].
  destruct (hidden_layers_loop neigh 0 (Z.to_nat n) []) as [e1|hls] eqn:Hloop.
  { intros [= <-]. right; right. eapply hidden_layers_loop_error, Hloop. }
  destruct (neigh_get neigh "solver") as [e2|so] eqn:Hso.
  { intros [= <-]. right; right.
    destruct (neigh_get_error _ _ _ Hso) as [-> _]. eexists; reflexivity. }
  destruct (neigh_get neigh "learning_rate") as [e3|al] eqn:Hal; [|discriminate].
  intros [= <-]. right; right.
  destruct (neigh_get_error _ _ _ Hal) as [-> _]. eexists; reflexivity.
Qed.

(** X18: [ModelFunc] raises [UnboundLocalError] for [MODEL] on every model
    type other than the six tags it tests (the documented ['user_defined']
    among them), and on none of the six. *)
Theorem ModelFunc_unknown_type (self : stochastic_ruler value)
  (neigh : config value) :
  (~ In (model_type self) model_tags ->
   ModelFunc self neigh = inl (Core (UnboundLocalError "MODEL"))) /\
  (In (model_type self) model_tags ->
   forall name, ModelFunc self neigh <> inl (Core (UnboundLocalError name))).
Proof.
  rewrite ModelFunc_dispatch. unfold model_tags. split.
  - intros Hnot.
    repeat match goal with
           | |- context [String.eqb (model_type self) ?t] =>
               destruct (String.eqb_spec (model_type self) t) as [Heq|_];
               [exfalso; apply Hnot; rewrite Heq; simpl; tauto|]
           end.
    reflexivity.
  - intros Hin name Hraise.
    assert (Hb3 : forall k1 k2 k3 make,
               build3 neigh k1 k2 k3 make
               <> inl (Core (UnboundLocalError name))).
    { intros k1 k2 k3 make Hb.
      apply build3_error in Hb as (key & _ & [=] & _). }
    destruct (String.eqb (model_type self) "MLP") eqn:E1.
    { apply build_MLP_error in Hraise as [[=]|[[=]|[key [=]]]]. }
    destruct (String.eqb (model_type self) "SVM") eqn:E2;
      [exact (Hb3 _ _ _ _ Hraise)|].
    destruct (String.eqb (model_type self) "RFC") eqn:E3;
      [exact (Hb3 _ _ _ _ Hraise)|].
    destruct (String.eqb (model_type self) "DTC") eqn:E4; [discriminate|].
    destruct (String.eqb (model_type self) "GBC") eqn:E5;
      [exact (Hb3 _ _ _ _ Hraise)|].
    destruct (String.eqb (model_type self) "KNN") eqn:E6;
      [exact (Hb3 _ _ _ _ Hraise)|].
    simpl in Hin.
    repeat match goal with
           | H : String.eqb _ _ = false |- _ => apply String.eqb_neq in H
           end.
    intuition congruence.
Qed.

(** X19: for the model types 'SVM', 'RFC', 'GBC' and 'KNN' the model is
    constructed exactly when the configuration holds the three
    hyperparameters the constructor call names; otherwise [ModelFunc]
    raises [KeyError] for one of them that is missing. *)
Theorem ModelFunc_needs_its_keys (self : stochastic_ruler value)
  (neigh : config value) :
  In (model_type self) ["SVM"; "RFC"; "GBC"; "KNN"] ->
  ((exists m, ModelFunc self neigh = inr m) <->
   forall key, In key (keys_read (model_type self)) ->
               is_Some (dict_get neigh key)) /\
  (forall e, ModelFunc self neigh = inl e ->
     exists key, In key (keys_read (model_type self)) /\
                 e = Core (KeyError key) /\ dict_get neigh key = None).
Proof.
  rewrite ModelFunc_dispatch. unfold keys_read. simpl.
  intros [E|[E|[E|[E|[]]]]]; rewrite <- E; simpl;
    (split; [apply build3_ok|apply build3_error]).
Qed.

(** X20: for the model types 'SVM', 'RFC', 'DTC', 'GBC' and 'KNN' two
    configurations that agree on the hyperparameters the constructor call
    names give the same outcome; 'DTC' names none, so that every
    configuration gives [DecisionTreeClassifier(random_state=0)]. *)
Theorem ModelFunc_reads_only_its_keys (self : stochastic_ruler value)
  (n1 n2 : config value) :
  In (model_type self) ["SVM"; "RFC"; "DTC"; "GBC"; "KNN"] ->
  (forall key, In key (keys_read (model_type self)) ->
               dict_get n1 key = dict_get n2 key) ->
  ModelFunc self n1 = ModelFunc self n2 /\
  (model_type self = "DTC" ->
   ModelFunc self n1 = inr (DecisionTreeClassifier 0)).
Proof.
  rewrite !ModelFunc_dispatch. unfold keys_read. simpl.
  intros [E|[E|[E|[E|[E|[]]]]]]; rewrite <- E; simpl; intros Hagree;
    (split; [try apply build3_agree; try reflexivity; exact Hagree
            |try discriminate; reflexivity]).
Qed.

Lemma hidden_layers_loop_ok (neigh : config value) (n : nat) :
  forall i acc hls,
    hidden_layers_loop neigh i n acc = inr hls ->
    exists new,
      hls = acc ++ new /\ length new = n /\
      forall j, (j < n)%nat ->
                new !! j = dict_get neigh (hidden_layer_key (i + j)).
Proof.
  induction n as [|n IH]; intros i acc hls; simpl.
  - intros [= <-]. exists []. split; [by rewrite app_nil_r|].
    split; [reflexivity|]. intros j Hj. lia.
  - unfold neigh_get.
    destruct (dict_get neigh (hidden_layer_key i)) as [v|] eqn:Hget;
      [|discriminate].
    intros Hrest. destruct (IH _ _ _ Hrest) as (new & -> & Hlen & Hnew).
    exists (v :: new). split; [by rewrite <- app_assoc|].
    split; [simpl; lia|]. intros [|j] Hj; simpl.
    + rewrite Nat.add_0_r. symmetry. exact Hget.
    + rewrite Hnew by lia. do 2 f_equal. lia.
Qed.

(** X21: for the model type 'MLP' the number of hidden layers is the first
    allowed value of 'num_hidden_layers' in the space, whatever the
    configuration says; the layer sizes are the configuration's values at
    'hidden_layer_0', 'hidden_layer_1', ..., and the configuration's
    'learning_rate' is passed as [alpha]. *)
Theorem ModelFunc_MLP (self : stochastic_ruler value) (neigh : config value)
  (m : model value) :
  model_type self = "MLP" ->
  ModelFunc self neigh = inr m ->
  exists vals N n solver alpha hls,
    dict_get (space self) "num_hidden_layers" = Some vals /\
    head vals = Some N /\ as_index N = Some n /\
    dict_get neigh "solver" = Some solver /\
    dict_get neigh "learning_rate" = Some alpha /\
    length hls = Z.to_nat n /\
    (forall j, (j < Z.to_nat n)%nat ->
               hls !! j = dict_get neigh (hidden_layer_key j)) /\
    m = MLPClassifier 1000 solver alpha hls.
Proof.
  intros Hmt. rewrite ModelFunc_dispatch, Hmt. simpl. unfold build_MLP.
  destruct (dict_get (space self) "num_hidden_layers") as [vals|];
    [|discriminate].
  destruct (py_getitem vals 0) as [N|e0] eqn:Hget; [|discriminate].
  destruct (as_index N) as [n|] eqn:Hn; [|discriminate].
  destruct (hidden_layers_loop neigh 0 (Z.to_nat n) []) as [e1|hls] eqn:Hloop;
    [discriminate|].
  unfold neigh_get.
  destruct (dict_get neigh "solver") as [so|]; [|discriminate].
  destruct (dict_get neigh "learning_rate") as [al|]; [|discriminate].
  intros [= <-].
  destruct (hidden_layers_loop_ok _ _ _ _ _ Hloop) as (new & -> & Hlen & Hnew).
  exists vals, N, n, so, al, new. simpl.
  repeat split; try assumption; try reflexivity.
  apply py_getitem_first, Hget.
Qed.

End ModelFuncProperties.

(** ** Runs that have not ended *)

Section UnfinishedRuns.
Context {value : Type} `{!PyStr value} {W : Type} `{!World value W}.





End UnfinishedRuns.

(** ** Short runs *)

Section ShortRuns.
Context {value : Type} `{!PyStr value} {W : Type} `{!World value W}.

(** X22: when [maxevals] is at most 14 every pass of a run draws exactly
    one (sample, ruler) pair, and the cost returned is at most every sample
    drawn in an accepted or forced pass. *)
Theorem short_run_single_draws (self : stochastic_ruler value) (fuel : nat)
  (w : W) m o w' log :
  maxevals self <= 14 ->
  SR_Algo self fuel w = Some (Ok (m, o, w', log)) ->
  Forall (fun p => length (pass_draws p) = 1%nat) log /\
  bounds_all_samples m log.
Proof.
  intros Hme Hrun.
  assert (Hone : Forall (fun p => length (pass_draws p) = 1%nat) log).
  { pose proof (passes_well_formed_loop _ _ _ _ _ _ _ Hrun) as Hwf.
    eapply Forall_impl; [exact Hwf|].
    intros p ([Hk1 Hk2] & m0 & pre & d & Hm & Hdraws & _ & Hlen).
    rewrite (Mf_between (pass_k p) 1) in Hm by lia.
    injection Hm as <-. rewrite Hdraws, length_app in *. simpl in *. lia. }
  split; [exact Hone|].
  destruct (SR_Algo_returns _ _ _ _ _ _ _ Hrun) as (c0 & _ & Hloop).
  destruct (while_loop_minh _ _ _ _ _ _ _ _ _ Hloop) as (_ & new & -> & Hnew).
  intros p d Hp Hdecided Hd. simpl in Hp.
  rewrite Forall_forall in Hone.
  pose proof (Hone p (proj2 (list_elem_of_In _ _) Hp)) as Hlen.
  destruct (pass_draws p) as [|[h r] [|? ?]] eqn:Hdraws; try discriminate.
  destruct Hd as [<-|[]]. simpl.
  apply (Hnew p h Hp).
  unfold deciding_sample in *. rewrite Hdraws in *. simpl in *.
  destruct (Qltb r h || Qltb h r); [reflexivity|congruence].
Qed.

End ShortRuns.

(** ** The further properties at concrete inputs *)

Example demo_run :
  SR_Algo (World0 := scripted peak_cost) (searcher 1) 1 demo_world
  = Some (Ok (0%Q, Config [("x", PInt 1)], Script [] [] 1, demo_log)).
Proof. reflexivity. Qed.

Lemma random_pick_shape_witness :
  map fst [("x", PInt 3)] = map fst [("x", PInt 1)] /\
  Script [] [] 0
  = Nat.iter (length [("x", PInt 1)])
      (fun w0 => snd (randint (World := scripted peak_cost) w0))
      (Script [StepDown] [] 0).
Proof.
  apply (random_pick_shape (World0 := scripted peak_cost) (searcher 1)
           [("x", PInt 1)] (Script [StepDown] [] 0)).
  - apply (bool_decide_unpack _). vm_compute. exact I.
  - reflexivity.
Defined.

Lemma random_pick_foreign_item_witness :
  random_pick_from_neighbourhood_structure (World0 := scripted peak_cost)
    (searcher 1) ([("x", PInt 1)] ++ ("y", PInt 1) :: []) (Script [] [] 0)
  = Raise (KeyError (key_of "y" (PInt 1))).
Proof.
  apply (random_pick_foreign_item (World0 := scripted peak_cost)
           grid "DTC" 1 (searcher 1) [("x", PInt 1)] [] "y" (PInt 1)
           (Script [] [] 0)).
  - reflexivity.
  - constructor; [|constructor].
    exists [PInt 1; PInt 2; PInt 3]. split; [reflexivity|]. simpl. tauto.
  - vm_compute. intros [H|[H|[H|[]]]]; discriminate.
Defined.

Lemma random_pick_single_valued_witness :
  exists w',
    random_pick_from_neighbourhood_structure (World0 := scripted peak_cost)
      (typed_searcher [("x", [PInt 7])] "DTC") [("x", PInt 7)]
      (Script [StepUp] [] 0)
    = Ok ([("x", PInt 7)], w').
Proof.
  apply (random_pick_single_valued (World0 := scripted peak_cost)
           [("x", [PInt 7])] "DTC" 100
           (typed_searcher [("x", [PInt 7])] "DTC")).
  - reflexivity.
  - constructor; [reflexivity|constructor].
  - constructor; [|constructor].
    exists [PInt 7]. split; [reflexivity|]. simpl. tauto.
  - apply (bool_decide_unpack _). vm_compute. exact I.
Defined.

Lemma random_pick_cyclic_neighbour_witness :
  Forall2 (cyclic_neighbour grid) [("x", PInt 1)] [("x", PInt 3)].
Proof.
  apply (random_pick_cyclic_neighbour (World0 := scripted peak_cost)
           grid "DTC" 1 (searcher 1) [("x", PInt 1)] (Script [StepDown] [] 0)
           [("x", PInt 3)] (Script [] [] 0)).
  - reflexivity.
  - apply (bool_decide_unpack _). vm_compute. exact I.
  - constructor; [|constructor].
    exists [PInt 1; PInt 2; PInt 3]. split; [reflexivity|]. simpl. tauto.
  - apply (bool_decide_unpack _). vm_compute. exact I.
  - reflexivity.
Defined.

Lemma min_score_is_running_min_witness :
  0%Q = running_min (decided_samples demo_log) 1%Q.
Proof.
  apply (min_score_is_running_min (World0 := scripted peak_cost)
           (searcher 1) 1 demo_world 0%Q (Config [("x", PInt 1)])
           (Script [] [] 1) demo_log).
  reflexivity.
Defined.

Lemma opt_x_provenance_witness :
  Qlt 0 1 /\
  exists p, In p demo_log /\ deciding_sample p = Some 0%Q /\
            [("x", PInt 1)] = next_x p.
Proof.
  apply (opt_x_provenance (World0 := scripted peak_cost)
           (searcher 1) 1 demo_world 0%Q (Config [("x", PInt 1)])
           (Script [] [] 1) demo_log).
  reflexivity.
Defined.

Lemma decided_passes_count_witness :
  length (decided_samples demo_log) = Z.to_nat (maxevals (searcher 1)).
Proof.
  apply (decided_passes_count (World0 := scripted peak_cost)
           (searcher 1) 1 demo_world 0%Q (Config [("x", PInt 1)])
           (Script [] [] 1) demo_log).
  reflexivity.
Defined.

Lemma passes_follow_witness :
  exists c0,
    initial_choice_loop (space (searcher 1)) [] = Ok c0 /\
    follows 1 c0 demo_log.
Proof.
  apply (passes_follow (World0 := scripted peak_cost)
           (searcher 1) 1 demo_world 0%Q (Config [("x", PInt 1)])
           (Script [] [] 1) demo_log).
  reflexivity.
Defined.

Lemma passes_well_formed_witness :
  Forall (well_formed_pass (maxevals (searcher 1))) demo_log.
Proof.
  apply (passes_well_formed (World0 := scripted peak_cost)
           (searcher 1) 1 demo_world 0%Q (Config [("x", PInt 1)])
           (Script [] [] 1) demo_log).
  reflexivity.
Defined.

Lemma run_stays_in_space_witness :
  Forall (pass_in_space grid) demo_log /\
  forall c, Config [("x", PInt 1)] = Config c -> in_space grid c.
Proof.
  apply (run_stays_in_space (World0 := scripted peak_cost)
           grid "DTC" 1 (searcher 1) 1 demo_world 0%Q
           (Config [("x", PInt 1)]) (Script [] [] 1) demo_log).
  - reflexivity.
  - apply (bool_decide_unpack _). vm_compute. exact I.
  - reflexivity.
Defined.

Lemma SR_Algo_empty_dimension_witness :
  SR_Algo (World0 := scripted peak_cost)
    (typed_searcher [("x", [PInt 1]); ("a", [])] "DTC") 5 (Script [] [] 0)
  = Some (Raise IndexError).
Proof.
  apply (SR_Algo_empty_dimension (World0 := scripted peak_cost)
           (typed_searcher [("x", [PInt 1]); ("a", [])] "DTC") 5
           (Script [] [] 0)).
  right. left. reflexivity.
Defined.

Lemma initial_choice_first_values_witness :
  exists c0,
    initial_choice_loop mlp_space [] = Ok c0 /\
    Forall2 first_value mlp_space c0.
Proof.
  apply (initial_choice_first_values mlp_space).
  - apply (bool_decide_unpack _). vm_compute. exact I.
  - repeat constructor; discriminate.
Defined.


(** In the world above every pass ends on a sample equal to its ruler:
    four rounds make four passes, none of them decided, and the run has
    not returned. *)
Example tied_run_unfinished :
  SR_Algo (World0 := scripted (constant_cost (1 # 2))) (searcher 2) 4
    (Script [] [] 0) = None /\
  length (passes_made (World0 := scripted (constant_cost (1 # 2)))
            (searcher 2) 4 start (Script [] [] 0)) = 4%nat /\
  decided_samples (passes_made (World0 := scripted (constant_cost (1 # 2)))
                     (searcher 2) 4 start (Script [] [] 0)) = [].
Proof. repeat split. Qed.

(** With draws that decide every pass the run returns within [maxevals]
    rounds. *)
Example decided_run_returns :
  exists log,
    SR_Algo (World0 := scripted (constant_cost 1)) (searcher 3) 3
      (Script [] [] 0)
    = Some (Ok (1%Q, EmptyList, Script [] [] 3, log)) /\
    log = passes_made (World0 := scripted (constant_cost 1))
            (searcher 3) 3 start (Script [] [] 0) /\
    length (decided_samples log) = 3%nat.
Proof. eexists. repeat split. Qed.

Lemma ModelFunc_unknown_type_witness :
  ModelFunc (typed_searcher grid "user_defined") [("x", PInt 1)]
  = inl (Core (UnboundLocalError "MODEL")).
Proof.
  apply (proj1 (ModelFunc_unknown_type (typed_searcher grid "user_defined")
                  [("x", PInt 1)])).
  simpl. intros [H|[H|[H|[H|[H|[H|[]]]]]]]; discriminate.
Defined.

Lemma ModelFunc_needs_its_keys_witness :
  ((exists m,
       ModelFunc (typed_searcher grid "SVM")
         [("kernel", PStr "rbf"); ("C", PInt 1)] = inr m) <->
   forall key, In key (keys_read "SVM") ->
               is_Some (dict_get [("kernel", PStr "rbf"); ("C", PInt 1)] key)) /\
  (forall e,
      ModelFunc (typed_searcher grid "SVM")
        [("kernel", PStr "rbf"); ("C", PInt 1)] = inl e ->
      exists key, In key (keys_read "SVM") /\ e = Core (KeyError key) /\
                  dict_get [("kernel", PStr "rbf"); ("C", PInt 1)] key = None).
Proof.
  apply (ModelFunc_needs_its_keys (typed_searcher grid "SVM")
           [("kernel", PStr "rbf"); ("C", PInt 1)]).
  simpl. tauto.
Defined.

Example ModelFunc_SVM_missing_gamma :
  ModelFunc (typed_searcher grid "SVM") [("kernel", PStr "rbf"); ("C", PInt 1)]
  = inl (Core (KeyError "gamma")).
Proof. reflexivity. Qed.

Lemma ModelFunc_reads_only_its_keys_witness :
  ModelFunc (typed_searcher grid "DTC") [("x", PInt 1)]
  = ModelFunc (typed_searcher grid "DTC") [("x", PInt 3)] /\
  (model_type (typed_searcher grid "DTC") = "DTC" ->
   ModelFunc (typed_searcher grid "DTC") [("x", PInt 1)]
   = inr (DecisionTreeClassifier 0)).
Proof.
  apply (ModelFunc_reads_only_its_keys (typed_searcher grid "DTC")
           [("x", PInt 1)] [("x", PInt 3)]).
  - simpl. tauto.
  - simpl. intros key [].
Defined.

Lemma ModelFunc_MLP_witness :
  exists vals N n solver alpha hls,
    dict_get (space (typed_searcher mlp_space "MLP")) "num_hidden_layers"
    = Some vals /\
    head vals = Some N /\ as_index N = Some n /\
    dict_get [("num_hidden_layers", PInt 3); ("hidden_layer_0", PInt 16);
              ("hidden_layer_1", PInt 4); ("solver", PStr "sgd");
              ("learning_rate", PStr "0.01")] "solver" = Some solver /\
    dict_get [("num_hidden_layers", PInt 3); ("hidden_layer_0", PInt 16);
              ("hidden_layer_1", PInt 4); ("solver", PStr "sgd");
              ("learning_rate", PStr "0.01")] "learning_rate" = Some alpha /\
    length hls = Z.to_nat n /\
    (forall j, (j < Z.to_nat n)%nat ->
               hls !! j
               = dict_get [("num_hidden_layers", PInt 3);
                           ("hidden_layer_0", PInt 16);
                           ("hidden_layer_1", PInt 4); ("solver", PStr "sgd");
                           ("learning_rate", PStr "0.01")]
                   (hidden_layer_key j)) /\
    MLPClassifier 1000 (PStr "sgd") (PStr "0.01") [PInt 16; PInt 4]
    = MLPClassifier 1000 solver alpha hls.
Proof.
  apply (ModelFunc_MLP (typed_searcher mlp_space "MLP")
           [("num_hidden_layers", PInt 3); ("hidden_layer_0", PInt 16);
            ("hidden_layer_1", PInt 4); ("solver", PStr "sgd");
            ("learning_rate", PStr "0.01")]).
  - reflexivity.
  - reflexivity.
Defined.

Lemma short_run_single_draws_witness :
  Forall (fun p => length (pass_draws p) = 1%nat) demo_log /\
  bounds_all_samples 0%Q demo_log.
Proof.
  apply (short_run_single_draws (World0 := scripted peak_cost)
           (searcher 1) 1 demo_world 0%Q (Config [("x", PInt 1)])
           (Script [] [] 1) demo_log).
  - simpl. lia.
  - reflexivity.
Defined.
